(** * btcfs inscription SDK: envelope encoder, commit/reveal orchestrator,
      PSBT assembler and BRC-20 balance gate

    A shallow embedding of
    - [packages/sdk/src/inscription/witness.ts]  ([buildWitnessScript],
      [opPush], [chunkContent]),
    - [packages/sdk/src/transactions/Inscriber.ts] (class [Inscriber]),
    - [packages/sdk/src/transactions/psbt.ts] ([createPsbt], [processInput]),
    - [packages/sdk/src/brc20/BRC20TransferBase.ts],
    together with the properties the specification states about them.

    Conventions.  A JavaScript string is a [string] holding its UTF-8 bytes, a
    [Buffer] is a list of bytes, satoshi amounts are integers ([Z]), a
    function that may throw returns a [Result], and an [await]ed call on the
    data source is a call of a function that stands for the data source's
    answer. *)

From Stdlib Require Import String Ascii.
From Stdlib.Strings Require Import Byte.
From Stdlib Require Import List ZArith Arith Lia Bool.
From Equations Require Import Equations.
Import ListNotations.

Set Implicit Arguments.

(** ** Errors and the result monad *)

(** The error conditions of the SDK.  The repository throws [OrditSDKError] or
    [Error] with a message; each constructor stands for one message. *)
Inductive Error : Type :=
| MissingField            (* "Failed to build witness script" *)
| OversizedElement        (* "Data is too large to push. Use chunkContent ..." *)
| NotReady                (* "Failed to build PSBT. Transaction not ready" *)
| InvalidTx               (* "Invalid tx! Make sure you generate commit address ..." *)
| NoUTXOFound             (* "No UTXO found to recover" *)
| PreviewModeRestricted   (* "Unable to process request in preview mode" *)
| BelowDustLimit          (* "Requested output amount is lower than minimum dust amount" *)
| NoSelectedUtxos         (* "No selected utxos retrieved" *)
| InvalidRequest          (* "Invalid request" *)
| NoSpendableFunds        (* "No spendable UTXOs" *)
| InsufficientBalance (available spend fees : Z)
| UnsupportedScriptType   (* "invalid script pub type" *)
| UnableToProcessInput (kind : string) (* "Unable to process ... input" *)
| InputIndexTooHigh       (* thrown by Psbt.setInputSequence *)
| NoBalance               (* "Owner does not have any balance for this token" *)
| TypeError               (* a property read on undefined *)
| External (msg : string) (* a failure of the data source, passed through *).

Inductive Result (A : Type) : Type :=
| Ok (a : A)
| Throw (e : Error).
Arguments Ok {A} a.
Arguments Throw {A} e.

Definition bind {A B : Type} (r : Result A) (k : A -> Result B) : Result B :=
  match r with
  | Ok a => k a
  | Throw e => Throw e
  end.

Definition rmap {A B : Type} (f : A -> B) (r : Result A) : Result B :=
  bind r (fun a => Ok (f a)).

Declare Scope result_scope.
Delimit Scope result_scope with result.
Notation "x <- c ;; k" := (bind c (fun x => k))
  (at level 61, c at next level, right associativity) : result_scope.
Notation "c ;;; k" := (bind c (fun _ => k))
  (at level 61, right associativity) : result_scope.
Open Scope result_scope.

(** ** Buffers and strings *)

Definition Buffer : Type := list byte.

(** [Buffer.from(s, "utf8")] *)
Definition Buffer_from_utf8 (s : string) : Buffer := list_byte_of_string s.

(** [buf.subarray(start, end)]: the bytes from [start] up to but not
    including [end], [end] being cut at the buffer's length. *)
Definition subarray (buf : Buffer) (start end_ : nat) : Buffer :=
  firstn (end_ - start) (skipn start buf).

(** [s.includes(sub)] on strings. *)
Fixpoint includes (s sub : string) : bool :=
  if String.prefix sub s then true
  else match s with
       | EmptyString => false
       | String _ s' => includes s' sub
       end.

(** Truthiness of a string: only the empty string is falsy. *)
Definition truthy_string (s : string) : bool :=
  match s with
  | EmptyString => false
  | String _ _ => true
  end.

(** [a || b] on strings. *)
Definition or_string (a b : string) : string :=
  if truthy_string a then a else b.

(** ** Chunking ([chunkContent]) *)

Section Chunking.

(** The maximum size of one script element. *)
Variable M : nat.
Hypothesis M_pos : 0 < M.

(** The [while (chunkedBytes < contentBuffer.byteLength)] loop; [chunks]
    and [chunkedBytes] are the two mutable variables. *)
Equations? chunk_loop (contentBuffer : Buffer) (chunks : list Buffer)
  (chunkedBytes : nat) : list Buffer
  by wf (length contentBuffer - chunkedBytes) lt :=
  chunk_loop contentBuffer chunks chunkedBytes
    with lt_dec chunkedBytes (length contentBuffer) => {
    | left _ =>
        chunk_loop contentBuffer
          (chunks ++ [subarray contentBuffer chunkedBytes (chunkedBytes + M)])
          (chunkedBytes +
             length (subarray contentBuffer chunkedBytes (chunkedBytes + M)))
    | right _ => chunks }.
Proof.
  unfold subarray. rewrite length_firstn, length_skipn. lia.
Qed.

End Chunking.

(** Modelled from the spec: the constant [MAXIMUM_SCRIPT_ELEMENT_SIZE] of
    [../constants], a file that is not among the sources; the specification
    gives the maximum script-element size as 520 bytes. *)
Definition MAXIMUM_SCRIPT_ELEMENT_SIZE : nat := 520.

Lemma MAXIMUM_SCRIPT_ELEMENT_SIZE_pos : 0 < MAXIMUM_SCRIPT_ELEMENT_SIZE.
Proof. unfold MAXIMUM_SCRIPT_ELEMENT_SIZE. lia. Qed.

(** ** Script elements and the platform *)

(** An element of the array handed to [bitcoin.script.compile]: a number (an
    opcode, or the bare integer [1]) or a Buffer to push. *)
Inductive StackElement : Type :=
| Op (n : Z)
| Push (b : Buffer).

(** [bitcoin.opcodes] *)
Definition OP_FALSE : Z := 0.
Definition OP_0 : Z := 0.
Definition OP_IF : Z := 99.
Definition OP_ENDIF : Z := 104.
Definition OP_CHECKSIG : Z := 172.

(** What the code takes from Node and from bitcoinjs-lib.  None of it is part
    of the repository, so the development is parametric in it. *)
Class Platform : Type := {
  (** [Buffer.from(s, "hex")] *)
  Buffer_from_hex : string -> Buffer;
  (** [Buffer.from(s, "base64")]: the bytes that the base64 text [s] stands for *)
  Buffer_from_base64 : string -> Buffer;
  (** [Buffer.from(a, enc)] for an array [a] of strings *)
  Buffer_from_array : list string -> Buffer;
  (** the type [NestedObject] of metadata objects *)
  NestedObject : Type;
  (** [JSON.stringify] on a metadata object *)
  JSON_stringify : NestedObject -> string;
  (** [encodeObject] of [../utils] *)
  encodeObject : NestedObject -> NestedObject;
  (** [bitcoin.script.compile] *)
  script_compile : list StackElement -> Buffer
}.

Inductive BufferEncoding : Type := utf8 | base64.

(** A value of type [string | Buffer]. *)
Inductive Content : Type :=
| CStr (s : string)
| CBuf (b : Buffer).

(** [Buffer.isBuffer(Buffer)]: the argument is the class [Buffer] itself,
    which is not a Buffer instance. *)
Definition Buffer_isBuffer_of_Buffer : bool := false.

(** [mapM] of the result monad: [xs.map(f)] where [f] may throw. *)
Fixpoint mapM {A B : Type} (f : A -> Result B) (xs : list A) : Result (list B) :=
  match xs with
  | [] => Ok []
  | x :: xs' => y <- f x ;; ys <- mapM f xs' ;; Ok (y :: ys)
  end.

(** [xs.map((x, index) => f x index)], indices starting at [i]. *)
Fixpoint mapM_index {A B : Type} (f : A -> nat -> Result B) (i : nat)
  (xs : list A) : Result (list B) :=
  match xs with
  | [] => Ok []
  | x :: xs' => y <- f x i ;; ys <- mapM_index f (S i) xs' ;; Ok (y :: ys)
  end.

Module Witness.
Section WithPlatform.

Context {P : Platform}.

(** [Buffer.from(str, encoding)] for [str : string | Buffer]; the encoding
    is ignored when the argument is a Buffer, which is copied. *)
Definition Buffer_from (str : Content) (encoding : BufferEncoding) : Buffer :=
  match str with
  | CBuf b => b
  | CStr s =>
      match encoding with
      | utf8 => Buffer_from_utf8 s
      | base64 => Buffer_from_base64 s
      end
  end.

(** [chunkContent(str, encoding = "utf8")] *)
Definition chunkContent (str : Content) (encoding : BufferEncoding)
  : list Buffer :=
  let contentBuffer :=
    if Buffer_isBuffer_of_Buffer
    then match str with CBuf b => b | CStr _ => [] end
    else Buffer_from str encoding in
  chunk_loop MAXIMUM_SCRIPT_ELEMENT_SIZE_pos contentBuffer [] 0.

(** The argument of [opPush]: a string, a Buffer, or (through the cast
    [options.mediaType as string]) an array of strings. *)
Inductive PushData : Type :=
| PString (s : string)
| PBuffer (b : Buffer)
| PArray (a : list string).

(** [opPush(data)] *)
Definition opPush (data : PushData) : Result Buffer :=
  let buff :=
    match data with
    | PBuffer b => b
    | PString s => Buffer_from_utf8 s
    | PArray a => Buffer_from_array a
    end in
  if MAXIMUM_SCRIPT_ELEMENT_SIZE <? length buff
  then Throw OversizedElement
  else Ok (concat [buff]).

(** [mediaType: string | string[]] *)
Inductive MediaType : Type :=
| TOne (t : string)
| TMany (ts : list string).

(** [mediaContent: string | string[]]; the callers also pass Buffers. *)
Inductive MediaContent : Type :=
| COne (c : Content)
| CMany (cs : list Content).

(** [meta: any]: the values the callers pass are [undefined], [false],
    [null] or a metadata object. *)
Inductive Meta : Type :=
| MetaUndefined
| MetaBool (b : bool)
| MetaNull
| MetaObject (o : NestedObject).

(** [typeof meta === "object"] *)
Definition typeof_is_object (m : Meta) : bool :=
  match m with
  | MetaNull | MetaObject _ => true
  | MetaUndefined | MetaBool _ => false
  end.

(** [JSON.stringify(meta)] where [typeof meta === "object"] *)
Definition JSON_stringify_meta (m : Meta) : string :=
  match m with
  | MetaObject o => JSON_stringify o
  | _ => "null"
  end.

(** [WitnessScriptOptions]; a field that the caller left out is [None]. *)
Record WitnessScriptOptions : Type := {
  xkey : option string;
  mediaContent : option MediaContent;
  mediaType : option MediaType;
  meta : Meta;
  recover : bool
}.

(** Truthiness of [options.mediaType]: an array is truthy even when empty. *)
Definition truthy_mediaType (m : option MediaType) : bool :=
  match m with
  | None => false
  | Some (TOne t) => truthy_string t
  | Some (TMany _) => true
  end.

(** Truthiness of [options.mediaContent]: arrays and Buffers are truthy
    even when empty. *)
Definition truthy_mediaContent (m : option MediaContent) : bool :=
  match m with
  | None => false
  | Some (COne (CStr s)) => truthy_string s
  | Some (COne (CBuf _)) => true
  | Some (CMany _) => true
  end.

Definition truthy_xkey (k : option string) : bool :=
  match k with
  | None => false
  | Some s => truthy_string s
  end.

(** [options.mediaType[index]]: an element of the array, or one character
    of the string; [None] is [undefined]. *)
Definition mediaType_at (m : MediaType) (index : nat) : option string :=
  match m with
  | TMany ts => nth_error ts index
  | TOne t =>
      match String.get index t with
      | Some c => Some (String c EmptyString)
      | None => None
      end
  end.

(** [options.mediaType.includes("text")]: a substring test on a string, a
    membership test on an array. *)
Definition mediaType_includes_text (m : MediaType) : bool :=
  match m with
  | TOne t => includes t "text"
  | TMany ts => existsb (String.eqb "text") ts
  end.

Definition mediaType_pushData (m : MediaType) : PushData :=
  match m with
  | TOne t => PString t
  | TMany ts => PArray ts
  end.

(** The block [if (typeof options.meta === "object") { ... }] that fills
    [metaStackElements]. *)
Definition metaStackElements (m : Meta) : Result (list StackElement) :=
  if typeof_is_object m then
    dob <- opPush (PString "DOB") ;;
    ctype <- opPush (PString "application/json;charset=utf-8") ;;
    let metaChunks := chunkContent (CStr (JSON_stringify_meta m)) utf8 in
    pushes <- mapM (fun chunk => opPush (PBuffer chunk)) metaChunks ;;
    Ok ([Op OP_FALSE; Op OP_IF; Push dob; Op 1; Op 1; Push ctype; Op OP_0]
          ++ map Push pushes ++ [Op OP_ENDIF])
  else Ok [].

(** The arrow function given to [options.mediaContent.map] in the batch
    branch. *)
Definition multiContents_item (mt : MediaType) (content : Content)
  (index : nat) : Result (list StackElement) :=
  t <- match mediaType_at mt index with
       | Some t => Ok t
       | None => Throw TypeError
       end ;;
  let contentChunks :=
    chunkContent content (if negb (includes t "text") then base64 else utf8) in
  contentStackElements <- mapM (fun chunk => opPush (PBuffer chunk)) contentChunks ;;
  dob <- opPush (PString "DOB") ;;
  ty <- opPush (PString t) ;;
  Ok ([Op OP_FALSE; Op OP_IF; Push dob; Op 1; Op 1; Push ty; Op OP_0]
        ++ map Push contentStackElements ++ [Op OP_ENDIF]).

(** [buildWitnessScript({ recover = false, ...options })] *)
Definition buildWitnessScript (options : WitnessScriptOptions) : Result Buffer :=
  if negb (truthy_mediaType (mediaType options))
     || negb (truthy_mediaContent (mediaContent options))
     || negb (truthy_xkey (xkey options))
  then Throw MissingField
  else
    match xkey options, mediaType options, mediaContent options with
    | Some key, Some mt, Some mc =>
        if recover options
        then Ok (script_compile [Push (Buffer_from_hex key); Op OP_CHECKSIG])
        else
          metaElements <- metaStackElements (meta options) ;;
          match mc with
          | CMany contents =>
              let header := [Push (Buffer_from_hex key); Op OP_CHECKSIG] in
              multiContents <- mapM_index (multiContents_item mt) 0 contents ;;
              Ok (script_compile (header ++ concat multiContents))
          | COne content =>
              let contentChunks :=
                chunkContent content
                  (if negb (mediaType_includes_text mt) then base64 else utf8) in
              contentStackElements <-
                mapM (fun chunk => opPush (PBuffer chunk)) contentChunks ;;
              dob <- opPush (PString "DOB") ;;
              ty <- opPush (mediaType_pushData mt) ;;
              let baseStackElements :=
                [Push (Buffer_from_hex key); Op OP_CHECKSIG;
                 Op OP_FALSE; Op OP_IF; Push dob; Op 1; Op 1; Push ty;
                 Op OP_0] in
              Ok (script_compile
                    (baseStackElements ++ map Push contentStackElements
                       ++ [Op OP_ENDIF] ++ metaElements))
          end
    | _, _, _ => Throw MissingField
    end.

End WithPlatform.
End Witness.

(** ** Transactions: shared types *)

(** [scriptPubKey] of an unspent output. *)
Record ScriptPubKey : Type := {
  spk_type : string;
  spk_address : string;
  spk_hex : string
}.

(** [UTXO] / [UTXOLimited] of [./types]: the fields the code reads. *)
Record UTXO : Type := {
  txid : string;
  n : Z;
  sats : Z;
  scriptPubKey : ScriptPubKey
}.

(** [Output] of [./types] *)
Record Output : Type := {
  out_address : string;
  out_value : Z
}.

(** [Taptree] of bitcoinjs-lib: a leaf [{ output }] or a pair of trees. *)
Inductive Taptree : Type :=
| TapLeaf (output : Buffer)
| TapBranch (l r : Taptree).

(** [Payment["redeem"]] *)
Record Redeem : Type := {
  redeem_output : Buffer;
  redeem_redeemVersion : Z
}.

(** [bitcoin.payments.Payment]: the fields the code reads. *)
Record Payment : Type := {
  pay_address : string;
  pay_output : Buffer;
  pay_redeemVersion : Z;
  pay_redeem : Redeem;
  pay_witness : list Buffer
}.

Record TapLeafScript : Type := {
  leafVersion : Z;
  script : Buffer;
  controlBlock : option Buffer
}.

(** The four kinds of PSBT input ([InputType] of psbt.ts); the taproot
    input that [Inscriber.build] makes also carries a [tapLeafScript]. *)
Inductive InputType : Type :=
| LegacyInput (hash : string) (index : Z) (nonWitnessUtxo : Buffer)
    (sighashType : option Z)
| SegwitInput (hash : string) (index : Z) (witnessUtxo : Buffer * Z)
    (sighashType : option Z)
| NestedSegwitInput (hash : string) (index : Z) (redeemScript : Buffer)
    (witnessUtxo : Buffer * Z) (sighashType : option Z)
| TaprootInput (hash : string) (index : Z) (tapInternalKey : Buffer)
    (witnessUtxo : Buffer * Z) (witnesses : option (list Buffer))
    (tapLeafScript : list TapLeafScript) (sighashType : option Z).

Definition input_hash (i : InputType) : string :=
  match i with
  | LegacyInput h _ _ _ | SegwitInput h _ _ _
  | NestedSegwitInput h _ _ _ _ | TaprootInput h _ _ _ _ _ _ => h
  end.

Definition input_index (i : InputType) : Z :=
  match i with
  | LegacyInput _ x _ _ | SegwitInput _ x _ _
  | NestedSegwitInput _ x _ _ _ | TaprootInput _ x _ _ _ _ _ => x
  end.

(** [a[a.length - 1]]: the last element, [undefined] on an empty array. *)
Definition last_element {A : Type} (a : list A) : option A :=
  match a with
  | [] => None
  | _ => nth_error a (length a - 1)
  end.

(** ** The commit/reveal orchestrator ([Inscriber]) *)

Module Inscriber.

(** The fields of the base classes [PSBTBuilder] and [FeeEstimator] that
    [Inscriber] reads or writes; [psbt] is whatever else they keep. *)
Record Builder (PsbtState : Type) : Type := {
  address : string;
  changeAddress : string;
  feeRate : Z;
  network : string;
  xKey : string;
  inputs : list InputType;
  outputs : list Output;
  fee : Z;
  virtualSize : Z;
  weight : Z;
  changeAmount : Z;
  inputAmount : Z;
  outputAmount : Z;
  witness : list Buffer;
  psbt : PsbtState
}.

Definition set_inputs {T} (i : list InputType) (b : Builder T) : Builder T :=
  {| address := address b; changeAddress := changeAddress b;
     feeRate := feeRate b; network := network b; xKey := xKey b;
     inputs := i; outputs := outputs b; fee := fee b;
     virtualSize := virtualSize b; weight := weight b;
     changeAmount := changeAmount b; inputAmount := inputAmount b;
     outputAmount := outputAmount b; witness := witness b; psbt := psbt b |}.

Definition set_outputs {T} (o : list Output) (b : Builder T) : Builder T :=
  {| address := address b; changeAddress := changeAddress b;
     feeRate := feeRate b; network := network b; xKey := xKey b;
     inputs := inputs b; outputs := o; fee := fee b;
     virtualSize := virtualSize b; weight := weight b;
     changeAmount := changeAmount b; inputAmount := inputAmount b;
     outputAmount := outputAmount b; witness := witness b; psbt := psbt b |}.

Definition set_witness {T} (w : list Buffer) (b : Builder T) : Builder T :=
  {| address := address b; changeAddress := changeAddress b;
     feeRate := feeRate b; network := network b; xKey := xKey b;
     inputs := inputs b; outputs := outputs b; fee := fee b;
     virtualSize := virtualSize b; weight := weight b;
     changeAmount := changeAmount b; inputAmount := inputAmount b;
     outputAmount := outputAmount b; witness := w; psbt := psbt b |}.

(** The parts of the SDK that [Inscriber] uses and that are not among the
    sources: the constant [MINIMUM_AMOUNT_IN_SATS], the methods it inherits
    from [PSBTBuilder] and [FeeEstimator], the helpers [getDummyP2TRInput]
    and [createTransaction], bitcoinjs-lib's [payments.p2tr], and the data
    source.  A method is a function from the builder's state to an outcome
    and the state it leaves. *)
Class Sdk : Type := {
  PsbtState : Type;
  MINIMUM_AMOUNT_IN_SATS : Z;
  (** [await this.prepare()] *)
  prepare : Builder PsbtState -> Result unit * Builder PsbtState;
  (** [this.initPSBT()] *)
  initPSBT : Builder PsbtState -> Builder PsbtState;
  (** [this.calculateNetworkFee()] *)
  calculateNetworkFee : Builder PsbtState -> Builder PsbtState;
  (** [await this.retrieveSelectedUTXOs(address, amount)] *)
  retrieveSelectedUTXOs :
    Builder PsbtState -> string -> Z -> Result (list UTXO) * Builder PsbtState;
  (** [(await this.datasource.getUnspents({ address })).spendableUTXOs] *)
  getUnspents_spendableUTXOs : string -> Result (list UTXO);
  getDummyP2TRInput : UTXO;
  (** [bitcoin.payments.p2tr({ internalPubkey, network, scriptTree, redeem })] *)
  payments_p2tr : Buffer -> string -> Taptree -> Redeem -> Payment;
  (** [createTransaction(key, "p2tr", network, { scriptTree, redeem })] *)
  createTransaction_p2tr : Buffer -> string -> Taptree -> Redeem -> Payment
}.

Section WithSdk.

Context {P : Platform} {sdk : Sdk}.

Inductive TaptreeVersion : Type := V1 | V2.

(** [witnessScripts: Record<"inscription" | "recovery" | "inscriptionOnly", Buffer | null>] *)
Record WitnessScripts : Type := {
  ws_inscription : option Buffer;
  ws_inscriptionOnly : option Buffer;
  ws_recovery : option Buffer
}.

(** An [Inscriber] object: the inherited state and its own fields. *)
Record Inscriber : Type := {
  base : Builder PsbtState;
  mediaType : option Witness.MediaType;
  mediaContent : option Witness.MediaContent;
  meta : option NestedObject;
  taptreeVersion : option TaptreeVersion;
  postage : Z;
  ready : bool;
  commitAddress : option string;
  destinationAddress : string;
  payment : option Payment;
  suitableUnspent : option UTXO;
  recovery : bool;
  recoverAmount : Z;
  encodeMetadata : bool;
  previewMode : bool;
  witnessScripts : WitnessScripts;
  taprootTree : option Taptree
}.

(** Assignments to the fields that the methods write. *)

Definition set_base (v : Builder PsbtState) (s : Inscriber) : Inscriber :=
  {| base := v; mediaType := mediaType s; mediaContent := mediaContent s;
     meta := meta s; taptreeVersion := taptreeVersion s; postage := postage
     s; ready := ready s; commitAddress := commitAddress s;
     destinationAddress := destinationAddress s; payment := payment s;
     suitableUnspent := suitableUnspent s; recovery := recovery s;
     recoverAmount := recoverAmount s; encodeMetadata := encodeMetadata s;
     previewMode := previewMode s; witnessScripts := witnessScripts s;
     taprootTree := taprootTree s |}.

Definition set_ready (v : bool) (s : Inscriber) : Inscriber :=
  {| base := base s; mediaType := mediaType s; mediaContent := mediaContent
     s; meta := meta s; taptreeVersion := taptreeVersion s; postage :=
     postage s; ready := v; commitAddress := commitAddress s;
     destinationAddress := destinationAddress s; payment := payment s;
     suitableUnspent := suitableUnspent s; recovery := recovery s;
     recoverAmount := recoverAmount s; encodeMetadata := encodeMetadata s;
     previewMode := previewMode s; witnessScripts := witnessScripts s;
     taprootTree := taprootTree s |}.

Definition set_commitAddress (v : option string) (s : Inscriber) : Inscriber :=
  {| base := base s; mediaType := mediaType s; mediaContent := mediaContent
     s; meta := meta s; taptreeVersion := taptreeVersion s; postage :=
     postage s; ready := ready s; commitAddress := v; destinationAddress :=
     destinationAddress s; payment := payment s; suitableUnspent :=
     suitableUnspent s; recovery := recovery s; recoverAmount :=
     recoverAmount s; encodeMetadata := encodeMetadata s; previewMode :=
     previewMode s; witnessScripts := witnessScripts s; taprootTree :=
     taprootTree s |}.

Definition set_payment (v : option Payment) (s : Inscriber) : Inscriber :=
  {| base := base s; mediaType := mediaType s; mediaContent := mediaContent
     s; meta := meta s; taptreeVersion := taptreeVersion s; postage :=
     postage s; ready := ready s; commitAddress := commitAddress s;
     destinationAddress := destinationAddress s; payment := v;
     suitableUnspent := suitableUnspent s; recovery := recovery s;
     recoverAmount := recoverAmount s; encodeMetadata := encodeMetadata s;
     previewMode := previewMode s; witnessScripts := witnessScripts s;
     taprootTree := taprootTree s |}.

Definition set_suitableUnspent (v : option UTXO) (s : Inscriber) : Inscriber :=
  {| base := base s; mediaType := mediaType s; mediaContent := mediaContent
     s; meta := meta s; taptreeVersion := taptreeVersion s; postage :=
     postage s; ready := ready s; commitAddress := commitAddress s;
     destinationAddress := destinationAddress s; payment := payment s;
     suitableUnspent := v; recovery := recovery s; recoverAmount :=
     recoverAmount s; encodeMetadata := encodeMetadata s; previewMode :=
     previewMode s; witnessScripts := witnessScripts s; taprootTree :=
     taprootTree s |}.

Definition set_recovery (v : bool) (s : Inscriber) : Inscriber :=
  {| base := base s; mediaType := mediaType s; mediaContent := mediaContent
     s; meta := meta s; taptreeVersion := taptreeVersion s; postage :=
     postage s; ready := ready s; commitAddress := commitAddress s;
     destinationAddress := destinationAddress s; payment := payment s;
     suitableUnspent := suitableUnspent s; recovery := v; recoverAmount :=
     recoverAmount s; encodeMetadata := encodeMetadata s; previewMode :=
     previewMode s; witnessScripts := witnessScripts s; taprootTree :=
     taprootTree s |}.

Definition set_recoverAmount (v : Z) (s : Inscriber) : Inscriber :=
  {| base := base s; mediaType := mediaType s; mediaContent := mediaContent
     s; meta := meta s; taptreeVersion := taptreeVersion s; postage :=
     postage s; ready := ready s; commitAddress := commitAddress s;
     destinationAddress := destinationAddress s; payment := payment s;
     suitableUnspent := suitableUnspent s; recovery := recovery s;
     recoverAmount := v; encodeMetadata := encodeMetadata s; previewMode :=
     previewMode s; witnessScripts := witnessScripts s; taprootTree :=
     taprootTree s |}.

Definition set_previewMode (v : bool) (s : Inscriber) : Inscriber :=
  {| base := base s; mediaType := mediaType s; mediaContent := mediaContent
     s; meta := meta s; taptreeVersion := taptreeVersion s; postage :=
     postage s; ready := ready s; commitAddress := commitAddress s;
     destinationAddress := destinationAddress s; payment := payment s;
     suitableUnspent := suitableUnspent s; recovery := recovery s;
     recoverAmount := recoverAmount s; encodeMetadata := encodeMetadata s;
     previewMode := v; witnessScripts := witnessScripts s; taprootTree :=
     taprootTree s |}.

Definition set_witnessScripts (v : WitnessScripts) (s : Inscriber) : Inscriber :=
  {| base := base s; mediaType := mediaType s; mediaContent := mediaContent
     s; meta := meta s; taptreeVersion := taptreeVersion s; postage :=
     postage s; ready := ready s; commitAddress := commitAddress s;
     destinationAddress := destinationAddress s; payment := payment s;
     suitableUnspent := suitableUnspent s; recovery := recovery s;
     recoverAmount := recoverAmount s; encodeMetadata := encodeMetadata s;
     previewMode := previewMode s; witnessScripts := v; taprootTree :=
     taprootTree s |}.

Definition set_taprootTree (v : option Taptree) (s : Inscriber) : Inscriber :=
  {| base := base s; mediaType := mediaType s; mediaContent := mediaContent
     s; meta := meta s; taptreeVersion := taptreeVersion s; postage :=
     postage s; ready := ready s; commitAddress := commitAddress s;
     destinationAddress := destinationAddress s; payment := payment s;
     suitableUnspent := suitableUnspent s; recovery := recovery s;
     recoverAmount := recoverAmount s; encodeMetadata := encodeMetadata s;
     previewMode := previewMode s; witnessScripts := witnessScripts s;
     taprootTree := v |}.

(** *** Methods

    A method is a computation on the object: from the state it is called in
    to its outcome (a value, or the error thrown) and the state it leaves. *)

Definition M (A : Type) : Type := Inscriber -> Result A * Inscriber.

Definition ret {A : Type} (a : A) : M A := fun s => (Ok a, s).

Definition throw {A : Type} (e : Error) : M A := fun s => (Throw e, s).

Definition mbind {A B : Type} (m : M A) (k : A -> M B) : M B :=
  fun s =>
    match m s with
    | (Ok a, s') => k a s'
    | (Throw e, s') => (Throw e, s')
    end.

Definition get : M Inscriber := fun s => (Ok s, s).

Definition modify (f : Inscriber -> Inscriber) : M unit := fun s => (Ok tt, f s).

(** A call of an inherited method. *)
Definition super {A : Type}
  (m : Builder PsbtState -> Result A * Builder PsbtState) : M A :=
  fun s => let (r, b) := m (base s) in (r, set_base b s).

(** A call of a function that may throw and touches no state. *)
Definition call {A : Type} (r : Result A) : M A := fun s => (r, s).

(** [try { m } catch (error) { h }] *)
Definition try_ {A : Type} (m : M A) (h : Error -> M A) : M A :=
  fun s =>
    match m s with
    | (Ok a, s') => (Ok a, s')
    | (Throw e, s') => h e s'
    end.

Declare Scope inscriber_scope.
Delimit Scope inscriber_scope with inscriber.
Notation "x <- c ;; k" := (mbind c (fun x => k))
  (at level 61, c at next level, right associativity) : inscriber_scope.
Notation "c ;;; k" := (mbind c (fun _ => k))
  (at level 61, right associativity) : inscriber_scope.
Local Open Scope inscriber_scope.

(** The non-null assertion [x!] on a script that [buildWitness] has set. *)
Definition nonnull (o : option Buffer) : Buffer :=
  match o with
  | Some b => b
  | None => []
  end.

(** [this.commitAddress!] *)
Definition nonnull_string (o : option string) : string :=
  match o with
  | Some a => a
  | None => EmptyString
  end.

(** [getMetadata()] *)
Definition getMetadata : M Witness.Meta :=
  s <- get ;;
  ret match meta s with
      | Some o =>
          if encodeMetadata s
          then Witness.MetaObject (encodeObject o)
          else Witness.MetaObject o
      | None => Witness.MetaUndefined
      end.

(** [build()] *)
Definition build : M unit :=
  s <- get ;;
  match suitableUnspent s, payment s with
  | Some unspent, Some pay =>
      modify (fun s =>
        set_base (set_inputs
          [TaprootInput (txid unspent) (n unspent)
             (Buffer_from_hex (xKey (base s)))
             (pay_output pay, sats unspent) None
             [{| leafVersion := pay_redeemVersion pay;
                 script := redeem_output (pay_redeem pay);
                 controlBlock := last_element (pay_witness pay) |}]
             None]
          (base s)) s) ;;;
      (s <- get ;;
       if negb (recovery s)
       then modify (fun s =>
              set_base (set_outputs
                ([{| out_address :=
                       or_string (destinationAddress s) (address (base s));
                     out_value := postage s |}] ++ outputs (base s))
                (base s)) s)
       else ret tt) ;;;
      (s <- get ;;
       if recovery s
       then
         modify (set_recoverAmount (sats unspent - fee (base s))) ;;;
         modify (fun s =>
           set_base (set_outputs
             [{| out_address :=
                   or_string (changeAddress (base s)) (address (base s));
                 out_value := recoverAmount s |}]
             (base s)) s)
       else ret tt) ;;;
      super prepare
  | _, _ => throw NotReady
  end.

(** [isBuilt()] *)
Definition isBuilt : M unit :=
  s <- get ;;
  if negb (truthy_string (nonnull_string (commitAddress s)))
     || (fee (base s) =? 0)%Z
  then throw InvalidTx
  else ret tt.

(** [buildWitness()] *)
Definition buildWitness : M unit :=
  s <- get ;;
  meta1 <- getMetadata ;;
  inscription <- call (Witness.buildWitnessScript
    {| Witness.mediaContent := mediaContent s;
       Witness.mediaType := mediaType s;
       Witness.meta := meta1;
       Witness.xkey := Some (xKey (base s));
       Witness.recover := false |}) ;;
  inscriptionOnly <- call (Witness.buildWitnessScript
    {| Witness.mediaContent := mediaContent s;
       Witness.mediaType := mediaType s;
       Witness.meta := Witness.MetaBool false;
       Witness.xkey := Some (xKey (base s));
       Witness.recover := false |}) ;;
  meta2 <- getMetadata ;;
  recovery_ <- call (Witness.buildWitnessScript
    {| Witness.mediaContent := mediaContent s;
       Witness.mediaType := mediaType s;
       Witness.meta := meta2;
       Witness.xkey := Some (xKey (base s));
       Witness.recover := true |}) ;;
  modify (set_witnessScripts
    {| ws_inscription := Some inscription;
       ws_inscriptionOnly := Some inscriptionOnly;
       ws_recovery := Some recovery_ |}).

(** [buildTaprootTree()] *)
Definition buildTaprootTree : M unit :=
  buildWitness ;;;
  modify (fun s =>
    let w := witnessScripts s in
    match taptreeVersion s with
    | Some V2 =>
        set_taprootTree
          (Some (TapBranch
                   (TapBranch (TapLeaf (nonnull (ws_recovery w)))
                      (TapLeaf (nonnull (ws_inscription w))))
                   (TapLeaf (nonnull (ws_inscriptionOnly w))))) s
    | _ =>
        set_taprootTree
          (Some (TapBranch (TapLeaf (nonnull (ws_inscription w)))
                   (TapLeaf (nonnull (ws_recovery w))))) s
    end).

Definition getInscriptionRedeemScript (s : Inscriber) : Redeem :=
  {| redeem_output := nonnull (ws_inscription (witnessScripts s));
     redeem_redeemVersion := 192 |}.

Definition getInscriptionOnlyRedeemScript (s : Inscriber) : Redeem :=
  {| redeem_output := nonnull (ws_inscriptionOnly (witnessScripts s));
     redeem_redeemVersion := 192 |}.

Definition getRecoveryRedeemScript (s : Inscriber) : Redeem :=
  {| redeem_output := nonnull (ws_recovery (witnessScripts s));
     redeem_redeemVersion := 192 |}.

Definition getReedemScript (s : Inscriber) : Redeem :=
  match taptreeVersion s with
  | Some V2 => getInscriptionOnlyRedeemScript s
  | _ => getInscriptionRedeemScript s
  end.

(** The tree that [buildTaprootTree] has just assigned to [this.taprootTree]. *)
Definition the_taprootTree (s : Inscriber) : Taptree :=
  match taprootTree s with
  | Some t => t
  | None => TapLeaf []
  end.

(** [preview({ activate })] *)
Definition preview (activate : bool) : M unit :=
  if activate then
    modify (set_previewMode true) ;;;
    s <- get ;;
    unspent <-
      (if recovery s
       then l <- call (getUnspents_spendableUTXOs
                         (nonnull_string (commitAddress s))) ;;
            ret (hd_error l)
       else ret (Some getDummyP2TRInput)) ;;
    modify (set_suitableUnspent unspent) ;;;
    match recovery s, unspent with
    | true, None => throw NoUTXOFound
    | _, _ =>
        modify (set_ready true) ;;;
        build
    end
  else
    modify (fun s => set_base (initPSBT (base s)) s) ;;;
    modify (set_suitableUnspent None) ;;;
    modify (set_ready false) ;;;
    modify (fun s => set_base (set_outputs (tl (outputs (base s))) (base s)) s) ;;;
    modify (set_previewMode false).

(** [restrictUsageInPreviewMode()] *)
Definition restrictUsageInPreviewMode : M unit :=
  s <- get ;;
  if previewMode s then throw PreviewModeRestricted else ret tt.

(** [calculateNetworkFeeUsingPreviewMode()] *)
Definition calculateNetworkFeeUsingPreviewMode : M unit :=
  preview true ;;;
  modify (fun s => set_base (calculateNetworkFee (base s)) s) ;;;
  preview false.

(** [generateCommit()]: the pair returned is [{ address, revealFee }]. *)
Definition generateCommit : M (string * Z) :=
  buildTaprootTree ;;;
  modify (fun s =>
    set_payment
      (Some (payments_p2tr (Buffer_from_hex (xKey (base s)))
               (network (base s)) (the_taprootTree s) (getReedemScript s))) s) ;;;
  s <- get ;;
  match payment s with
  | Some pay =>
      modify (fun s => set_base (set_witness (pay_witness pay) (base s)) s) ;;;
      calculateNetworkFeeUsingPreviewMode ;;;
      modify (set_commitAddress (Some (pay_address pay))) ;;;
      s <- get ;;
      ret (pay_address pay, (fee (base s) + outputAmount (base s))%Z)
  | None => throw TypeError
  end.

(** The object that [recover()] returns. *)
Record Recovered : Type := {
  recoverAddress : string;
  recoverAmount_ : Z;
  recoverFee : Z
}.

(** [recover()] *)
Definition recover : M Recovered :=
  modify (set_recovery true) ;;;
  buildTaprootTree ;;;
  modify (fun s =>
    set_payment
      (Some (createTransaction_p2tr (Buffer_from_hex (xKey (base s)))
               (network (base s)) (the_taprootTree s)
               (getRecoveryRedeemScript s))) s) ;;;
  s <- get ;;
  match payment s with
  | Some pay =>
      modify (set_commitAddress (Some (pay_address pay))) ;;;
      calculateNetworkFeeUsingPreviewMode ;;;
      s <- get ;;
      ret {| recoverAddress :=
               or_string (changeAddress (base s)) (address (base s));
             recoverAmount_ := (recoverAmount s - fee (base s))%Z;
             recoverFee := fee (base s) |}
  | None => throw TypeError
  end.

(** [SkipStrictSatsCheckOptions]; [None] is a field left [undefined].  A
    [customAmount] that is [NaN] is falsy like one that is [undefined], so
    both are [None]. *)
Record SkipStrictSatsCheckOptions : Type := {
  skipStrictSatsCheck : option bool;
  customAmount : option Z
}.

Definition truthy_bool (b : option bool) : bool :=
  match b with
  | Some true => true
  | _ => false
  end.

Definition truthy_number (z : option Z) : bool :=
  match z with
  | Some v => negb (v =? 0)%Z
  | None => false
  end.

(** The [amount] that [fetchAndSelectSuitableUnspent] computes. *)
Definition requiredAmount (o : SkipStrictSatsCheckOptions) (s : Inscriber) : Z :=
  if recovery s
  then (outputAmount (base s) - fee (base s))%Z
  else if truthy_bool (skipStrictSatsCheck o) && truthy_number (customAmount o)
       then match customAmount o with Some c => c | None => 0%Z end
       else (outputAmount (base s) + fee (base s))%Z.

(** [fetchAndSelectSuitableUnspent({ skipStrictSatsCheck, customAmount })] *)
Definition fetchAndSelectSuitableUnspent (o : SkipStrictSatsCheckOptions)
  : M UTXO :=
  restrictUsageInPreviewMode ;;;
  isBuilt ;;;
  s <- get ;;
  let amount := requiredAmount o s in
  if (amount <? MINIMUM_AMOUNT_IN_SATS)%Z
  then throw BelowDustLimit
  else
    utxos <- super (fun b =>
      retrieveSelectedUTXOs b (nonnull_string (commitAddress s)) amount) ;;
    match utxos with
    | [] => throw NoSelectedUtxos
    | u :: _ =>
        modify (set_suitableUnspent (Some u)) ;;;
        modify (set_ready true) ;;;
        ret u
    end.

(** [isReady({ skipStrictSatsCheck, customAmount })] *)
Definition isReady (o : SkipStrictSatsCheckOptions) : M bool :=
  isBuilt ;;;
  s <- get ;;
  r <- (if negb (ready s)
        then try_ (fetchAndSelectSuitableUnspent o ;;; ret None)
               (fun error => ret (Some false))
        else ret None) ;;
  match r with
  | Some b => ret b
  | None => s <- get ;; ret (ready s)
  end.

End WithSdk.
End Inscriber.

(** ** The PSBT assembler ([createPsbt]) *)

Module Psbt.

(** bitcoinjs-lib's [Psbt], as far as [createPsbt] drives it: the inputs
    added, each with its sequence number, and the outputs added. *)
Record PsbtInput : Type := {
  payload : InputType;
  sequence : Z
}.

Record Psbt : Type := {
  psbt_inputs : list PsbtInput;
  psbt_outputs : list (string * Z)
}.

(** The largest sequence number, which a new input gets by default. *)
Definition MAX_SEQUENCE : Z := 0xffffffff.

(** [new Psbt({ network })] *)
Definition new_Psbt : Psbt := {| psbt_inputs := []; psbt_outputs := [] |}.

(** [psbt.addInput(payload)] *)
Definition addInput (p : Psbt) (i : InputType) : Psbt :=
  {| psbt_inputs := psbt_inputs p ++ [{| payload := i; sequence := MAX_SEQUENCE |}];
     psbt_outputs := psbt_outputs p |}.

Fixpoint set_nth_sequence (l : list PsbtInput) (i : nat) (v : Z) : list PsbtInput :=
  match l, i with
  | [], _ => []
  | x :: l', O => {| payload := payload x; sequence := v |} :: l'
  | x :: l', S i' => x :: set_nth_sequence l' i' v
  end.

(** [psbt.setInputSequence(inputIndex, sequence)]; bitcoinjs-lib throws
    "Input index too high" when there is no input at [inputIndex]. *)
Definition setInputSequence (p : Psbt) (inputIndex : nat) (v : Z) : Result Psbt :=
  if length (psbt_inputs p) <=? inputIndex
  then Throw InputIndexTooHigh
  else Ok {| psbt_inputs := set_nth_sequence (psbt_inputs p) inputIndex v;
             psbt_outputs := psbt_outputs p |}.

(** [psbt.addOutput({ address, value })] *)
Definition addOutput (p : Psbt) (o : string * Z) : Psbt :=
  {| psbt_inputs := psbt_inputs p; psbt_outputs := psbt_outputs p ++ [o] |}.

(** The answer of [OrditApi.fetchUnspentUTXOs]. *)
Record Unspents : Type := {
  spendableUTXOs : list UTXO;
  unspendableUTXOs : list UTXO;
  totalUTXOs : Z
}.

Inductive OnOffUnion : Type := on | off.

(** An element of [outputs]: [{ address, cardinals }]. *)
Record OutputRequest : Type := {
  address : string;
  cardinals : Z
}.

(** [CreatePsbtOptions]; [None] is an optional field left out. *)
Record CreatePsbtOptions : Type := {
  satsPerByte : Z;
  funding_address : string;
  outputs : list OutputRequest;
  enableRBF : option bool;
  pubKey : string;
  network : string;
  safeMode : option OnOffUnion
}.

(** What [createPsbt] and [processInput] use and is not among the sources:
    the constant [MINIMUM_AMOUNT_IN_SATS], [OrditApi], [FeeEstimator], the
    and the key helpers ([bip32.fromPublicKey] with [toXOnly],
    [createTransaction]). *)
Class Sdk : Type := {
  MINIMUM_AMOUNT_IN_SATS : Z;
  (** [OrditApi.fetchUnspentUTXOs({ address, network, type })] *)
  fetchUnspentUTXOs : string -> string -> string -> Result Unspents;
  (** [(await OrditApi.fetchTx({ txId, network, hex: true })).rawTx?.toBuffer()] *)
  fetchTx_rawTx : string -> string -> Result (option Buffer);
  (** [new FeeEstimator({ psbt, feeRate, network }).calculateNetworkFee()] *)
  FeeEstimator_calculateNetworkFee : Psbt -> Z -> string -> Z;
  (** [toXOnly(bip32.fromPublicKey(Buffer.from(pubKey, "hex"), chainCode, net).publicKey)] *)
  xOnlyPubKey : string -> string -> Result Buffer;
  (** [createTransaction(Buffer.from(pubKey, "hex"), "p2sh", network)]: the
      redeem script [p2sh.redeem.output] when [p2sh], [p2sh.output] and
      [p2sh.redeem] are all there *)
  p2sh_redeem_output : string -> string -> option Buffer
}.

Section WithSdk.

Context {P : Platform} {sdk : Sdk}.

(** [generateTaprootInput] *)
Definition generateTaprootInput (utxo : UTXO) (pubKey network : string)
  (sighashType : option Z) (witnesses : option (list Buffer))
  : Result InputType :=
  xOnly <- xOnlyPubKey pubKey network ;;
  if negb (truthy_string (spk_hex (scriptPubKey utxo)))
  then Throw (UnableToProcessInput "p2tr")
  else Ok (TaprootInput (txid utxo) (n utxo) xOnly
             (Buffer_from_hex (spk_hex (scriptPubKey utxo)), sats utxo)
             witnesses [] sighashType).

(** [generateSegwitInput] *)
Definition generateSegwitInput (utxo : UTXO) (sighashType : option Z)
  : Result InputType :=
  if negb (truthy_string (spk_hex (scriptPubKey utxo)))
  then Throw (UnableToProcessInput "Segwit")
  else Ok (SegwitInput (txid utxo) (n utxo)
             (Buffer_from_hex (spk_hex (scriptPubKey utxo)), sats utxo)
             sighashType).

(** [generateNestedSegwitInput] *)
Definition generateNestedSegwitInput (utxo : UTXO) (pubKey network : string)
  (sighashType : option Z) : Result InputType :=
  match p2sh_redeem_output pubKey network with
  | None => Throw (UnableToProcessInput "Segwit")
  | Some redeem =>
      Ok (NestedSegwitInput (txid utxo) (n utxo) redeem
            (Buffer_from_hex (spk_hex (scriptPubKey utxo)), sats utxo)
            sighashType)
  end.

(** [generateLegacyInput] *)
Definition generateLegacyInput (utxo : UTXO) (sighashType : option Z)
  (network : string) : Result InputType :=
  rawTx <- fetchTx_rawTx (txid utxo) network ;;
  match rawTx with
  | None => Throw (UnableToProcessInput "legacy")
  | Some raw => Ok (LegacyInput (txid utxo) (n utxo) raw sighashType)
  end.

(** [processInput({ utxo, pubKey, network, sighashType, witnesses })] *)
Definition processInput (utxo : UTXO) (pubKey network : string)
  (sighashType : option Z) (witnesses : option (list Buffer))
  : Result InputType :=
  let t := spk_type (scriptPubKey utxo) in
  if String.eqb t "witness_v1_taproot"
  then generateTaprootInput utxo pubKey network sighashType witnesses
  else if String.eqb t "witness_v0_scripthash" || String.eqb t "witness_v0_keyhash"
  then generateSegwitInput utxo sighashType
  else if String.eqb t "scripthash"
  then generateNestedSegwitInput utxo pubKey network sighashType
  else if String.eqb t "pubkeyhash"
  then generateLegacyInput utxo sighashType network
  else Throw UnsupportedScriptType.

(** [.reduce((acc, utxo) => (acc += utxo.sats), 0)] *)
Definition sum_sats (l : list UTXO) : Z :=
  fold_left (fun acc utxo => (acc + sats utxo)%Z) l 0%Z.

(** [outputs.reduce((acc, utxo) => (acc += utxo.cardinals), 0)] *)
Definition sum_cardinals (l : list OutputRequest) : Z :=
  fold_left (fun acc out => (acc + cardinals out)%Z) l 0%Z.

(** The [witnesses] that a payload contributes:
    [payload.type === "taproot" && payload.witnesses && witnesses.push(...)]. *)
Definition payload_witnesses (i : InputType) : list Buffer :=
  match i with
  | TaprootInput _ _ _ _ (Some w) _ _ => w
  | _ => []
  end.

(** The loop [for (const [index, utxo] of spendableUTXOs.entries())]; [index]
    is the position in [spendableUTXOs], [psbt] and [witnesses] are the two
    objects it fills. *)
Fixpoint add_inputs (o : CreatePsbtOptions) (rbf : bool) (index : nat)
  (utxos : list UTXO) (psbt : Psbt) (witnesses : list Buffer)
  : Result (Psbt * list Buffer) :=
  match utxos with
  | [] => Ok (psbt, witnesses)
  | utxo :: rest =>
      if negb (String.eqb (spk_address (scriptPubKey utxo)) (funding_address o))
      then add_inputs o rbf (S index) rest psbt witnesses
      else
        payload <- processInput utxo (pubKey o) (network o) None None ;;
        let witnesses := witnesses ++ payload_witnesses payload in
        let psbt := addInput psbt payload in
        psbt <- (if rbf then setInputSequence psbt index 0xfffffffd
                 else Ok psbt) ;;
        add_inputs o rbf (S index) rest psbt witnesses
  end.

Definition safeMode_is_off (o : CreatePsbtOptions) : bool :=
  match safeMode o with
  | Some off => true
  | _ => false
  end.

(** [enableRBF = true] by default *)
Definition rbf_enabled (o : CreatePsbtOptions) : bool :=
  match enableRBF o with
  | Some b => b
  | None => true
  end.

(** [inputSats] *)
Definition inputSats (o : CreatePsbtOptions) (u : Unspents) : Z :=
  sum_sats (spendableUTXOs u ++
            (if safeMode_is_off o then unspendableUTXOs u else [])).

(** [createPsbt(options)].  The value is the [psbt] object that the code
    returns in its two encodings, [{ hex: psbt.toHex(), base64:
    psbt.toBase64() }]. *)
Definition createPsbt (o : CreatePsbtOptions) : Result Psbt :=
  if (length (outputs o) =? 0)%nat then Throw InvalidRequest
  else
    u <- fetchUnspentUTXOs (funding_address o) (network o)
           (if safeMode_is_off o then "all" else "spendable") ;;
    if (totalUTXOs u =? 0)%Z then Throw NoSpendableFunds
    else
      let psbt := new_Psbt in
      let inputSats := inputSats o u in
      let outputSats := sum_cardinals (outputs o) in
      pw <- add_inputs o (rbf_enabled o) 0 (spendableUTXOs u) psbt [] ;;
      let psbt := fst pw in
      let fee := FeeEstimator_calculateNetworkFee psbt (satsPerByte o) (network o) in
      let remainingBalance := (inputSats - outputSats - fee)%Z in
      if (remainingBalance <? 0)%Z
      then Throw (InsufficientBalance inputSats outputSats fee)
      else
        let isChangeOwed := (MINIMUM_AMOUNT_IN_SATS <? remainingBalance)%Z in
        let outputs :=
          if isChangeOwed
          then outputs o ++ [{| address := funding_address o;
                                cardinals := remainingBalance |}]
          else outputs o in
        Ok (fold_left (fun p out => addOutput p (address out, cardinals out))
              outputs psbt).

End WithSdk.
End Psbt.

(** ** The balance gate ([BRC20TransferBase]) *)

Module BRC20.

(** A record of the token ledger for one ticker. *)
Record TokenBalance : Type := {
  tick : string;
  total : Z;
  available : Z;
  transferable : Z
}.

(** What [getBalances] returns. *)
Record Balances : Type := {
  b_total : Z;
  b_available : Z;
  b_transferable : Z
}.

Section WithDatasource.

(** [await datasource.getAddressTokens({ address })], [datasource] being the
    one given or a new [JsonRpcDatasource] for the network. *)
Variable getAddressTokens : string -> Result (list TokenBalance).

(** [getBalances({ address, tick, datasource, network })] *)
Definition getBalances (address tick_ : string) : Result Balances :=
  balances <- getAddressTokens address ;;
  match find (fun b => String.eqb (tick b) tick_) balances with
  | None => Throw NoBalance
  | Some balance =>
      Ok {| b_total := total balance;
            b_available := available balance;
            b_transferable := transferable balance |}
  end.

(** [hasEnoughTransferableBalance({ address, amount, tick, ... })] *)
Definition hasEnoughTransferableBalance (address : string) (amount : Z)
  (tick_ : string) : Result bool :=
  b <- getBalances address tick_ ;;
  Ok (b_transferable b >=? amount)%Z.

(** [hasEnoughOverallBalance({ address, amount, tick, ... })] *)
Definition hasEnoughOverallBalance (address : string) (amount : Z)
  (tick_ : string) : Result bool :=
  b <- getBalances address tick_ ;;
  Ok (b_available b >=? amount)%Z.

End WithDatasource.
End BRC20.

(** ** A concrete platform

    Executable stand-ins for the platform, to run the models on concrete
    inputs: hexadecimal and base64 decoding as Node does them on well-formed
    text, and the push encoding of [bitcoin.script.compile]. *)

Module Reference.

Definition byte_of_N (v : N) : byte :=
  match Byte.of_N (v mod 256) with
  | Some b => b
  | None => x00
  end.

Definition hex_digit (c : ascii) : option N :=
  let v := N_of_ascii c in
  if (48 <=? v)%N && (v <=? 57)%N then Some (v - 48)%N
  else if (97 <=? v)%N && (v <=? 102)%N then Some (v - 87)%N
  else if (65 <=? v)%N && (v <=? 70)%N then Some (v - 55)%N
  else None.

(** Pairs of hexadecimal digits, up to the first pair that is not one. *)
Fixpoint hex_decode (s : string) : Buffer :=
  match s with
  | String a (String b rest) =>
      match hex_digit a, hex_digit b with
      | Some x, Some y => byte_of_N (16 * x + y) :: hex_decode rest
      | _, _ => []
      end
  | _ => []
  end.

(** The value of a base64 digit, in the standard or the URL-safe alphabet. *)
Definition base64_digit (c : ascii) : option N :=
  let v := N_of_ascii c in
  if (65 <=? v)%N && (v <=? 90)%N then Some (v - 65)%N
  else if (97 <=? v)%N && (v <=? 122)%N then Some (v - 71)%N
  else if (48 <=? v)%N && (v <=? 57)%N then Some (v + 4)%N
  else if (v =? 43)%N || (v =? 45)%N then Some 62%N
  else if (v =? 47)%N || (v =? 95)%N then Some 63%N
  else None.

(** The digits of a base64 text up to the padding; other characters are
    skipped. *)
Fixpoint base64_digits (s : string) : list N :=
  match s with
  | EmptyString => []
  | String c rest =>
      if (N_of_ascii c =? 61)%N then []
      else match base64_digit c with
           | Some d => d :: base64_digits rest
           | None => base64_digits rest
           end
  end.

Fixpoint base64_bytes (l : list N) : Buffer :=
  match l with
  | a :: b :: c :: d :: rest =>
      byte_of_N (a * 4 + b / 16)
        :: byte_of_N (b * 16 + c / 4)
        :: byte_of_N (c * 64 + d)
        :: base64_bytes rest
  | [a; b; c] => [byte_of_N (a * 4 + b / 16); byte_of_N (b * 16 + c / 4)]
  | [a; b] => [byte_of_N (a * 4 + b / 16)]
  | _ => []
  end.

Definition base64_decode (s : string) : Buffer := base64_bytes (base64_digits s).

Definition base64_char (v : N) : ascii :=
  if (v <? 26)%N then ascii_of_N (v + 65)
  else if (v <? 52)%N then ascii_of_N (v + 71)
  else if (v <? 62)%N then ascii_of_N (v - 4)
  else if (v =? 62)%N then "+"%char
  else "/"%char.

(** [buf.toString("base64")] *)
Fixpoint base64_encode (l : Buffer) : string :=
  match l with
  | x :: y :: z :: rest =>
      let a := Byte.to_N x in
      let b := Byte.to_N y in
      let c := Byte.to_N z in
      String (base64_char (a / 4))
        (String (base64_char ((a mod 4) * 16 + b / 16))
           (String (base64_char ((b mod 16) * 4 + c / 64))
              (String (base64_char (c mod 64)) (base64_encode rest))))
  | [x; y] =>
      let a := Byte.to_N x in
      let b := Byte.to_N y in
      String (base64_char (a / 4))
        (String (base64_char ((a mod 4) * 16 + b / 16))
           (String (base64_char ((b mod 16) * 4)) "="))
  | [x] =>
      let a := Byte.to_N x in
      String (base64_char (a / 4))
        (String (base64_char ((a mod 4) * 16)) "==")
  | [] => EmptyString
  end.

(** The length prefix of a data push. *)
Definition push_prefix (len : nat) : Buffer :=
  let l := N.of_nat len in
  if (l <? 76)%N then [byte_of_N l]
  else if (l <=? 255)%N then [x4c; byte_of_N l]
  else [x4d; byte_of_N l; byte_of_N (l / 256)].

(** One element of a compiled script: a number is written as one byte, a
    Buffer as a push (the empty Buffer and the one-byte Buffers 1..16 and
    0x81 as their opcodes). *)
Definition compile_element (e : StackElement) : Buffer :=
  match e with
  | Op v => [byte_of_N (Z.to_N v)]
  | Push [] => [x00]
  | Push [b] =>
      let v := Byte.to_N b in
      if (1 <=? v)%N && (v <=? 16)%N then [byte_of_N (80 + v)]
      else if (v =? 129)%N then [x4f]
      else [x01; b]
  | Push b => push_prefix (length b) ++ b
  end.

Definition compile (l : list StackElement) : Buffer :=
  concat (map compile_element l).

(** A flat metadata object, and its JSON text. *)
Definition dquote : string := String (ascii_of_nat 34) EmptyString.

Definition json_field (kv : string * string) : string :=
  String.concat EmptyString
    [dquote; fst kv; dquote; ":"%string; dquote; snd kv; dquote].

Definition json_object (o : list (string * string)) : string :=
  String.concat EmptyString
    ["{"%string; String.concat ","%string (map json_field o); "}"%string].

#[export] Instance platform : Platform := {|
  Buffer_from_hex := hex_decode;
  Buffer_from_base64 := base64_decode;
  Buffer_from_array := fun a => map (fun _ => x00) a;
  NestedObject := list (string * string);
  JSON_stringify := json_object;
  encodeObject := fun o => o;
  script_compile := compile
|}.

End Reference.

(** * Properties *)

(** ** Chunking *)

Section ChunkingFacts.

Variable M : nat.
Hypothesis M_pos : 0 < M.

(** [ceil(n / M)] *)
Definition ceil_div (n : nat) : nat := (n + M - 1) / M.

Lemma ceil_div_0 : ceil_div 0 = 0.
Proof. unfold ceil_div. apply Nat.div_small. lia. Qed.

Lemma ceil_div_step (n : nat) :
  0 < n -> ceil_div n = S (ceil_div (n - Nat.min M n)).
Proof.
  intros Hn. unfold ceil_div.
  destruct (Nat.le_gt_cases n M) as [Hle | Hgt].
  - rewrite Nat.min_r by assumption.
    replace (n - n + M - 1) with (M - 1) by lia.
    rewrite (Nat.div_small (M - 1)) by lia.
    replace (n + M - 1) with ((n - 1) + 1 * M) by lia.
    rewrite Nat.div_add by lia.
    rewrite Nat.div_small by lia. reflexivity.
  - rewrite Nat.min_l by lia.
    replace (n + M - 1) with ((n - M + M - 1) + 1 * M) by lia.
    rewrite Nat.div_add by lia. lia.
Qed.

Lemma subarray_length (buf : Buffer) (c : nat) :
  length (subarray buf c (c + M)) = Nat.min M (length buf - c).
Proof.
  unfold subarray. rewrite length_firstn, length_skipn.
  replace (c + M - c) with M by lia. reflexivity.
Qed.

Lemma skipn_subarray (buf : Buffer) (c : nat) :
  skipn c buf =
  subarray buf c (c + M) ++ skipn (c + length (subarray buf c (c + M))) buf.
Proof.
  rewrite subarray_length. unfold subarray.
  replace (c + M - c) with M by lia.
  rewrite Nat.add_comm, <- skipn_skipn.
  destruct (Nat.le_gt_cases M (length buf - c)) as [Hle | Hgt].
  - rewrite Nat.min_l by assumption.
    symmetry. apply firstn_skipn.
  - rewrite Nat.min_r by lia.
    rewrite (firstn_all2 (n := M)) by (rewrite length_skipn; lia).
    rewrite (skipn_all2 (n := length buf - c))
      by (rewrite length_skipn; lia).
    symmetry. apply app_nil_r.
Qed.

(** What the loop computes from any intermediate state. *)
Lemma chunk_loop_spec (buf : Buffer) (chunks : list Buffer) (c : nat) :
  c <= length buf ->
  concat (chunk_loop M_pos buf chunks c) = concat chunks ++ skipn c buf
  /\ length (chunk_loop M_pos buf chunks c)
     = length chunks + ceil_div (length buf - c)
  /\ (Forall (fun ch => length ch <= M) chunks ->
      Forall (fun ch => length ch <= M) (chunk_loop M_pos buf chunks c)).
Proof.
  funelim (chunk_loop M_pos buf chunks c); intros Hc.
  - clear Heqcall. 
    match goal with
    | IH : _ -> _ /\ _ /\ _ |- _ =>
        destruct IH as (Hcat & Hlen & Hall);
        [rewrite subarray_length; lia |]
    end.
    repeat split.
    + rewrite Hcat, concat_app. simpl. rewrite app_nil_r, <- app_assoc.
      f_equal. symmetry. apply skipn_subarray.
    + rewrite Hlen, length_app. simpl.
      rewrite subarray_length.
      rewrite (ceil_div_step (n := length contentBuffer - chunkedBytes))
        by lia.
      replace (length contentBuffer -
               (chunkedBytes + Nat.min M (length contentBuffer - chunkedBytes)))
        with (length contentBuffer - chunkedBytes -
              Nat.min M (length contentBuffer - chunkedBytes)) by lia.
      lia.
    + intros HF. apply Hall. apply Forall_app. split; [assumption |].
      constructor; [| constructor].
      rewrite subarray_length. lia.
  - repeat split.
    + rewrite skipn_all2 by lia. symmetry. apply app_nil_r.
    + replace (length contentBuffer - chunkedBytes) with 0 by lia.
      rewrite ceil_div_0. lia.
    + tauto.
Qed.


(** [ceil_div n] is the least [k] with [n <= k * M]. *)
Lemma ceil_div_bounds (n : nat) :
  n <= ceil_div n * M /\ ceil_div n * M < n + M.
Proof.
  unfold ceil_div.
  pose proof (Nat.div_mod_eq (n + M - 1) M) as E.
  pose proof (Nat.mod_upper_bound (n + M - 1) M) as B.
  nia.
Qed.

End ChunkingFacts.

(** ** The envelope encoder *)

Module WitnessFacts.
Import Witness.

Section WithPlatform.

Context {P : Platform}.

Lemma chunkContent_spec (str : Content) (encoding : BufferEncoding) :
  concat (chunkContent str encoding) = Buffer_from str encoding
  /\ length (chunkContent str encoding)
     = ceil_div MAXIMUM_SCRIPT_ELEMENT_SIZE (length (Buffer_from str encoding))
  /\ Forall (fun chunk => length chunk <= MAXIMUM_SCRIPT_ELEMENT_SIZE)
       (chunkContent str encoding).
Proof.
  unfold chunkContent, Buffer_isBuffer_of_Buffer.
  destruct (chunk_loop_spec MAXIMUM_SCRIPT_ELEMENT_SIZE_pos
              (Buffer_from str encoding) [] (c := 0) (Nat.le_0_l _))
    as (Hcat & Hlen & Hall).
  repeat split.
  - exact Hcat.
  - rewrite Hlen, Nat.sub_0_r. reflexivity.
  - apply Hall. constructor.
Qed.

(** C3.  [chunkContent] splits the content bytes into chunks whose
    concatenation, in order, is the content again; there are
    [ceil(L / 520)] of them, [L] being the number of content bytes (that is
    the [k] with [L <= k * 520 < L + 520], and none when [L = 0]); and no
    chunk is longer than 520 bytes. *)
Theorem chunkContent_roundtrip (str : Content) (encoding : BufferEncoding) :
  let bytes := Buffer_from str encoding in
  let chunks := chunkContent str encoding in
  concat chunks = bytes
  /\ length chunks = ceil_div 520 (length bytes)
  /\ length bytes <= length chunks * 520 < length bytes + 520
  /\ ceil_div 520 0 = 0
  /\ Forall (fun chunk => length chunk <= 520) chunks.
Proof.
  intros bytes chunks.
  destruct (chunkContent_spec str encoding) as (Hcat & Hlen & Hall).
  change MAXIMUM_SCRIPT_ELEMENT_SIZE with 520 in Hlen, Hall.
  assert (H520 : 0 < 520) by (apply MAXIMUM_SCRIPT_ELEMENT_SIZE_pos).
  pose proof (ceil_div_bounds H520 (length bytes)) as [Hlo Hhi].
  subst chunks. rewrite Hlen.
  split; [exact Hcat |].
  split; [reflexivity |].
  split; [split; assumption |].
  split; [apply (ceil_div_0 H520) | exact Hall].
Qed.

Lemma opPush_Buffer (b : Buffer) :
  length b <= MAXIMUM_SCRIPT_ELEMENT_SIZE -> opPush (PBuffer b) = Ok b.
Proof.
  intros H. unfold opPush.
  destruct (Nat.ltb_spec MAXIMUM_SCRIPT_ELEMENT_SIZE (length b)); [lia |].
  simpl. rewrite app_nil_r. reflexivity.
Qed.

Lemma opPush_String (s : string) :
  opPush (PString s) =
  if MAXIMUM_SCRIPT_ELEMENT_SIZE <? length (Buffer_from_utf8 s)
  then Throw OversizedElement
  else Ok (Buffer_from_utf8 s).
Proof.
  unfold opPush.
  destruct (MAXIMUM_SCRIPT_ELEMENT_SIZE <? length (Buffer_from_utf8 s));
    [reflexivity |].
  simpl. rewrite app_nil_r. reflexivity.
Qed.

Lemma mapM_opPush (chunks : list Buffer) :
  Forall (fun chunk => length chunk <= MAXIMUM_SCRIPT_ELEMENT_SIZE) chunks ->
  mapM (fun chunk => opPush (PBuffer chunk)) chunks = Ok chunks.
Proof.
  induction 1 as [| b l Hb _ IH]; [reflexivity |].
  cbn [mapM]. rewrite opPush_Buffer by exact Hb. rewrite IH. reflexivity.
Qed.

Lemma mapM_opPush_chunkContent (str : Content) (encoding : BufferEncoding) :
  mapM (fun chunk => opPush (PBuffer chunk)) (chunkContent str encoding)
  = Ok (chunkContent str encoding).
Proof. apply mapM_opPush. apply chunkContent_spec. Qed.

(** The conditional block that an item of media type [t] contributes. *)
Definition envelope_block (t : string) (chunks : list Buffer) : list StackElement :=
  [Op OP_FALSE; Op OP_IF; Push (Buffer_from_utf8 "DOB"); Op 1; Op 1;
   Push (Buffer_from_utf8 t); Op OP_0]
    ++ map Push chunks ++ [Op OP_ENDIF].

(** The encoding in which a string item of media type [t] is read. *)
Definition encoding_for (t : string) : BufferEncoding :=
  if negb (includes t "text") then base64 else utf8.

Lemma metaStackElements_spec (m : Meta) :
  metaStackElements m =
  Ok (if typeof_is_object m
      then envelope_block "application/json;charset=utf-8"
             (chunkContent (CStr (JSON_stringify_meta m)) utf8)
      else []).
Proof.
  unfold metaStackElements.
  destruct (typeof_is_object m); [| reflexivity].
  rewrite !opPush_String.
  change (MAXIMUM_SCRIPT_ELEMENT_SIZE <? length (Buffer_from_utf8 "DOB"))
    with false.
  change (MAXIMUM_SCRIPT_ELEMENT_SIZE <?
          length (Buffer_from_utf8 "application/json;charset=utf-8"))
    with false.
  cbn [bind]. rewrite mapM_opPush_chunkContent. reflexivity.
Qed.

(** C4.  A single-item call that is not a recovery, with a non-empty media
    type, content and internal key, yields the script compiled from
    [internalKey, OP_CHECKSIG], then one block [OP_FALSE OP_IF <"DOB"> 1 1
    <mediaType> OP_0 <content chunks> OP_ENDIF], then, when [meta] is an
    object, a block of the same shape whose type is
    ["application/json;charset=utf-8"] and whose chunks are those of the JSON
    text of [meta].  (The media type has to fit one script element; the call
    throws otherwise.) *)
Theorem buildWitnessScript_single
  (key t : string) (content : Content) (m : Meta) :
  truthy_string key = true ->
  truthy_string t = true ->
  truthy_mediaContent (Some (COne content)) = true ->
  buildWitnessScript
    {| xkey := Some key; mediaContent := Some (COne content);
       mediaType := Some (TOne t); meta := m; recover := false |}
  = if 520 <? length (Buffer_from_utf8 t)
    then Throw OversizedElement
    else
      Ok (script_compile
            ([Push (Buffer_from_hex key); Op OP_CHECKSIG;
              Op OP_FALSE; Op OP_IF; Push (Buffer_from_utf8 "DOB");
              Op 1; Op 1; Push (Buffer_from_utf8 t); Op OP_0]
               ++ map Push (chunkContent content (encoding_for t))
               ++ [Op OP_ENDIF]
               ++ (if typeof_is_object m
                   then
                     [Op OP_FALSE; Op OP_IF; Push (Buffer_from_utf8 "DOB");
                      Op 1; Op 1;
                      Push (Buffer_from_utf8 "application/json;charset=utf-8");
                      Op OP_0]
                       ++ map Push
                            (chunkContent (CStr (JSON_stringify_meta m)) utf8)
                       ++ [Op OP_ENDIF]
                   else []))).
Proof.
  intros Hkey Ht Hc.
  unfold buildWitnessScript.
  cbn [xkey mediaContent mediaType meta recover truthy_mediaType truthy_xkey].
  rewrite Hkey, Ht, Hc. cbn [negb orb].
  rewrite metaStackElements_spec. cbn [bind].
  cbn [mediaType_includes_text mediaType_pushData].
  fold (encoding_for t).
  rewrite mapM_opPush_chunkContent. cbn [bind].
  rewrite !opPush_String.
  change (MAXIMUM_SCRIPT_ELEMENT_SIZE <? length (Buffer_from_utf8 "DOB"))
    with false.
  cbn [bind].
  change MAXIMUM_SCRIPT_ELEMENT_SIZE with 520.
  destruct (520 <? length (Buffer_from_utf8 t)); [reflexivity |].
  cbn [bind]. unfold envelope_block.
  destruct (typeof_is_object m); reflexivity.
Qed.

Lemma multiContents_item_spec (mt : MediaType) (content : Content)
  (index : nat) (t : string) :
  mediaType_at mt index = Some t ->
  multiContents_item mt content index =
  if MAXIMUM_SCRIPT_ELEMENT_SIZE <? length (Buffer_from_utf8 t)
  then Throw OversizedElement
  else Ok (envelope_block t (chunkContent content (encoding_for t))).
Proof.
  intros Ht. unfold multiContents_item. rewrite Ht. cbn [bind].
  fold (encoding_for t).
  rewrite mapM_opPush_chunkContent. cbn [bind].
  rewrite !opPush_String.
  change (MAXIMUM_SCRIPT_ELEMENT_SIZE <? length (Buffer_from_utf8 "DOB"))
    with false.
  cbn [bind].
  destruct (MAXIMUM_SCRIPT_ELEMENT_SIZE <? length (Buffer_from_utf8 t));
    reflexivity.
Qed.

(** The blocks of a batch: one per item, from the item and its media type. *)
Definition batch_blocks (contents : list Content) (ts : list string)
  : list (list StackElement) :=
  map (fun ct => envelope_block (snd ct)
                   (chunkContent (fst ct) (encoding_for (snd ct))))
    (combine contents ts).

Lemma mapM_index_batch (contents : list Content) :
  forall (seen ts : list string),
    length contents <= length ts ->
    Forall (fun t => length (Buffer_from_utf8 t) <= MAXIMUM_SCRIPT_ELEMENT_SIZE) ts ->
    mapM_index (multiContents_item (TMany (seen ++ ts))) (length seen) contents
    = Ok (batch_blocks contents ts).
Proof.
  induction contents as [| c contents IH]; intros seen ts Hlen Hfit.
  - reflexivity.
  - destruct ts as [| t ts]; [simpl in Hlen; lia |].
    inversion Hfit as [| ? ? Ht Hts]; subst.
    cbn [mapM_index].
    rewrite multiContents_item_spec with (t := t).
    2:{ cbn [mediaType_at]. rewrite nth_error_app2 by lia.
        rewrite Nat.sub_diag. reflexivity. }
    destruct (Nat.ltb_spec MAXIMUM_SCRIPT_ELEMENT_SIZE
                (length (Buffer_from_utf8 t))); [lia |].
    cbn [bind].
    replace (seen ++ t :: ts) with ((seen ++ [t]) ++ ts)
      by (rewrite <- app_assoc; reflexivity).
    replace (S (length seen)) with (length (seen ++ [t]))
      by (rewrite length_app; simpl; lia).
    rewrite IH; [reflexivity | simpl in Hlen; lia | assumption].
Qed.

(** The number of times the opcode [v] occurs among script elements. *)
Definition count_op (v : Z) (l : list StackElement) : nat :=
  length (filter (fun e => match e with
                           | Op w => (w =? v)%Z
                           | Push _ => false
                           end) l).

Lemma count_op_app (v : Z) (l1 l2 : list StackElement) :
  count_op v (l1 ++ l2) = count_op v l1 + count_op v l2.
Proof. unfold count_op. rewrite filter_app, length_app. reflexivity. Qed.

Lemma count_op_pushes (v : Z) (chunks : list Buffer) :
  count_op v (map Push chunks) = 0.
Proof. induction chunks; [reflexivity | assumption]. Qed.

Lemma count_op_block (v : Z) (t : string) (chunks : list Buffer) :
  count_op v (envelope_block t chunks)
  = count_op v [Op OP_FALSE; Op OP_IF; Op 1; Op 1; Op OP_0; Op OP_ENDIF].
Proof.
  unfold envelope_block.
  rewrite !count_op_app, count_op_pushes.
  unfold count_op. cbn [filter].
  destruct (OP_FALSE =? v)%Z, (OP_IF =? v)%Z, (1 =? v)%Z, (OP_0 =? v)%Z,
    (OP_ENDIF =? v)%Z; cbn [length app]; lia.
Qed.

Lemma count_op_blocks (v : Z) (contents : list Content) (ts : list string) :
  length contents <= length ts ->
  count_op v (concat (batch_blocks contents ts))
  = length contents
    * count_op v [Op OP_FALSE; Op OP_IF; Op 1; Op 1; Op OP_0; Op OP_ENDIF].
Proof.
  revert ts. induction contents as [| c contents IH]; intros ts Hlen.
  - reflexivity.
  - destruct ts as [| t ts]; [simpl in Hlen; lia |].
    unfold batch_blocks in *. cbn [combine map concat fst snd].
    rewrite count_op_app, count_op_block, IH by (simpl in Hlen; lia).
    cbn [length]. lia.
Qed.

(** C5.  A batch call (the content and the media types are arrays, with a
    media type that fits a script element for every item) yields the script
    compiled from [internalKey, OP_CHECKSIG] followed by one block
    [OP_FALSE OP_IF <"DOB"> 1 1 <type> OP_0 <chunks> OP_ENDIF] per item, in the
    order of the array.  [OP_CHECKSIG] occurs once among the elements,
    [OP_IF] and [OP_ENDIF] once per item, and the result does not depend on
    [meta]: there is no metadata block. *)
Theorem buildWitnessScript_batch
  (key : string) (ts : list string) (contents : list Content) (m : Meta) :
  truthy_string key = true ->
  length contents <= length ts ->
  Forall (fun t => length (Buffer_from_utf8 t) <= 520) ts ->
  let elements :=
    [Push (Buffer_from_hex key); Op OP_CHECKSIG]
      ++ concat
           (map (fun ct =>
                   [Op OP_FALSE; Op OP_IF; Push (Buffer_from_utf8 "DOB");
                    Op 1; Op 1; Push (Buffer_from_utf8 (snd ct)); Op OP_0]
                     ++ map Push (chunkContent (fst ct) (encoding_for (snd ct)))
                     ++ [Op OP_ENDIF])
              (combine contents ts)) in
  buildWitnessScript
    {| xkey := Some key; mediaContent := Some (CMany contents);
       mediaType := Some (TMany ts); meta := m; recover := false |}
  = Ok (script_compile elements)
  /\ count_op OP_CHECKSIG elements = 1
  /\ count_op OP_IF elements = length contents
  /\ count_op OP_ENDIF elements = length contents.
Proof.
  intros Hkey Hlen Hfit elements.
  assert (Hel : elements =
                [Push (Buffer_from_hex key); Op OP_CHECKSIG]
                  ++ concat (batch_blocks contents ts)) by reflexivity.
  split; [| rewrite Hel, !count_op_app, !count_op_blocks by assumption;
            unfold count_op; cbn; lia].
  unfold buildWitnessScript.
  cbn [xkey mediaContent mediaType meta recover truthy_mediaType
       truthy_mediaContent truthy_xkey].
  rewrite Hkey. cbn [negb orb].
  rewrite metaStackElements_spec. cbn [bind].
  pose proof (@mapM_index_batch contents nil ts Hlen Hfit) as Hb.
  cbn [app length] in Hb. rewrite Hb.
  reflexivity.
Qed.

(** C9 as amended.  In a recovery call the check of the three fields
    comes first: the call throws [MissingField] exactly when the media type,
    the content or the internal key is absent or is the empty string, and
    yields the script [internalKey, OP_CHECKSIG] otherwise.  An empty array
    (and an empty Buffer) is not an empty string and passes the check. *)
Theorem buildWitnessScript_recover_missing_field
  (key : option string) (mc : option MediaContent) (mt : option MediaType)
  (m : Meta) :
  let result :=
    buildWitnessScript
      {| xkey := key; mediaContent := mc; mediaType := mt; meta := m;
         recover := true |} in
  (result = Throw MissingField
   <-> (mt = None \/ mt = Some (TOne EmptyString)
        \/ mc = None \/ mc = Some (COne (CStr EmptyString))
        \/ key = None \/ key = Some EmptyString))
  /\ (result = Throw MissingField
      \/ exists k, key = Some k
           /\ result = Ok (script_compile [Push (Buffer_from_hex k); Op OP_CHECKSIG])).
Proof.
  intros result. subst result. unfold buildWitnessScript.
  cbn [xkey mediaContent mediaType meta recover].
  destruct mt as [[[| a t] | ts] |], mc as [[[[| b s] | buf] | cs] |],
    key as [[| c k] |];
    cbn [truthy_mediaType truthy_mediaContent truthy_xkey truthy_string
         negb orb];
    (split;
     [ split;
       [ intros H; try discriminate H; tauto
       | intros H; try reflexivity;
         repeat (destruct H as [H | H]; try discriminate H) ]
     | first [ left; reflexivity | right; eexists; split; reflexivity ] ]).
Qed.

(** C6 as amended.  The block of a batch item carries the chunks of the
    item's content read in the encoding of its media type: a string item is
    decoded from base64 text into the bytes it stands for unless its media
    type includes "text", in which case its UTF-8 bytes are taken; an item
    that is a Buffer is taken as it is.  The bytes pushed are therefore the
    raw content, in chunks of at most 520 bytes. *)
Theorem batch_item_payload
  (mt : MediaType) (content : Content) (index : nat) (t : string) :
  mediaType_at mt index = Some t ->
  length (Buffer_from_utf8 t) <= 520 ->
  let chunks := chunkContent content (encoding_for t) in
  multiContents_item mt content index
  = Ok ([Op OP_FALSE; Op OP_IF; Push (Buffer_from_utf8 "DOB"); Op 1; Op 1;
         Push (Buffer_from_utf8 t); Op OP_0]
          ++ map Push chunks ++ [Op OP_ENDIF])
  /\ concat chunks
     = match content with
       | CBuf b => b
       | CStr s =>
           if includes t "text" then Buffer_from_utf8 s
           else Buffer_from_base64 s
       end
  /\ Forall (fun chunk => length chunk <= 520) chunks.
Proof.
  intros Ht Hfit chunks.
  rewrite multiContents_item_spec with (t := t) by exact Ht.
  destruct (Nat.ltb_spec MAXIMUM_SCRIPT_ELEMENT_SIZE
              (length (Buffer_from_utf8 t)));
    [unfold MAXIMUM_SCRIPT_ELEMENT_SIZE in *; lia |].
  split; [reflexivity |].
  destruct (chunkContent_spec content (encoding_for t)) as (Hcat & _ & Hall).
  split; [| exact Hall].
  subst chunks. rewrite Hcat. unfold encoding_for.
  destruct content as [s | b]; [| reflexivity].
  destruct (includes t "text"); reflexivity.
Qed.

End WithPlatform.
End WitnessFacts.

(** *** The envelope encoder on concrete inputs *)

Module WitnessExamples.
Import Witness WitnessFacts.

#[local] Existing Instance Reference.platform.

Definition AB : Buffer := Buffer_from_utf8 "AB".

Definition ape : @Meta Reference.platform :=
  @MetaObject Reference.platform [("name", "ape")]%string.

(** The specification's example: media type "image/png" and the content
    "AB", given as the base64 text "QUI=". *)
Example envelope_image_png :
  buildWitnessScript
    {| xkey := Some "aabb"%string; mediaContent := Some (COne (CStr "QUI="));
       mediaType := Some (TOne "image/png"); meta := MetaUndefined;
       recover := false |}
  = Ok (script_compile
          [Push (Buffer_from_hex "aabb"); Op OP_CHECKSIG; Op OP_FALSE;
           Op OP_IF; Push (Buffer_from_utf8 "DOB"); Op 1; Op 1;
           Push (Buffer_from_utf8 "image/png"); Op OP_0; Push AB;
           Op OP_ENDIF]).
Proof. vm_compute. reflexivity. Qed.

Lemma chunkContent_roundtrip_1041 :
  length (chunkContent (CBuf (repeat x00 1041)) utf8) = 3.
Proof. vm_compute. reflexivity. Qed.

Lemma buildWitnessScript_single_witness :
  exists script,
    buildWitnessScript
      {| xkey := Some "aabb"%string; mediaContent := Some (COne (CStr "QUI="));
         mediaType := Some (TOne "image/png");
         meta := ape; recover := false |}
    = Ok script.
Proof.
  eexists.
  rewrite (@buildWitnessScript_single Reference.platform "aabb" "image/png"
             (CStr "QUI=") ape
             eq_refl eq_refl eq_refl).
  vm_compute. reflexivity.
Defined.

Lemma buildWitnessScript_batch_witness :
  exists script,
    buildWitnessScript
      {| xkey := Some "aabb"%string;
         mediaContent := Some (CMany [CBuf AB; CStr "hello"]);
         mediaType := Some (TMany ["image/png"; "text/plain"]%string);
         meta := ape; recover := false |}
    = Ok script.
Proof.
  eexists.
  refine (proj1 (@buildWitnessScript_batch Reference.platform "aabb"
                   ["image/png"; "text/plain"]%string [CBuf AB; CStr "hello"]
                   ape eq_refl _ _)).
  - simpl. lia.
  - repeat (apply Forall_cons; [vm_compute; lia |]). apply Forall_nil.
Defined.

Lemma batch_item_payload_witness :
  concat (chunkContent (CStr "QUI=") (encoding_for "image/png")) = AB.
Proof.
  refine (eq_trans
            (proj1 (proj2 (@batch_item_payload Reference.platform
                             (TMany ["image/png"%string]) (CStr "QUI=") 0
                             "image/png" eq_refl _))) _).
  - vm_compute. lia.
  - vm_compute. reflexivity.
Defined.

(** The payload of a batch item as the specification words it: the item's
    bytes, base64-encoded unless the media type indicates text, cut into
    chunks. *)
Definition spec_item_chunks (bytes : Buffer) (t : string) : list Buffer :=
  chunk_loop MAXIMUM_SCRIPT_ELEMENT_SIZE_pos
    (if includes t "text" then bytes
     else Buffer_from_utf8 (Reference.base64_encode bytes))
    [] 0.

(** C6 as stated fails.  The item is the two bytes "AB" of media type
    "image/png".  Base64-encoding them gives the text "QUI=", but the block
    carries the bytes "AB" themselves, both when the item is given as a
    Buffer and when it is given as the base64 text "QUI=". *)
Lemma batch_item_not_base64_encoded :
  spec_item_chunks AB "image/png" = [Buffer_from_utf8 "QUI="]
  /\ multiContents_item (TMany ["image/png"%string]) (CBuf AB) 0
     = Ok (envelope_block "image/png" [AB])
  /\ multiContents_item (TMany ["image/png"%string]) (CStr "QUI=") 0
     = Ok (envelope_block "image/png" [AB])
  /\ multiContents_item (TMany ["image/png"%string]) (CBuf AB) 0
     <> Ok (envelope_block "image/png" (spec_item_chunks AB "image/png")).
Proof.
  repeat split; try (vm_compute; reflexivity).
  vm_compute. discriminate.
Qed.

(** C9 as stated fails.  A recovery call whose media type and content are
    empty arrays passes the check and returns the recovery script. *)
Lemma buildWitnessScript_recover_empty_arrays :
  buildWitnessScript
    {| xkey := Some "aabb"%string; mediaContent := Some (CMany []);
       mediaType := Some (TMany []); meta := MetaUndefined; recover := true |}
  = Ok (script_compile [Push (Buffer_from_hex "aabb"); Op OP_CHECKSIG])
  /\ buildWitnessScript
       {| xkey := Some "aabb"%string; mediaContent := Some (CMany []);
          mediaType := Some (TMany []); meta := MetaUndefined; recover := true |}
     <> Throw MissingField.
Proof. split; [reflexivity | discriminate]. Qed.

End WitnessExamples.

(** ** The commit/reveal orchestrator *)

Module InscriberFacts.
Import Inscriber.

Section WithSdk.

Context {P : Platform} {sdk : Sdk}.

Local Open Scope Z_scope.

Lemma mbind_Ok {A B : Type} (m : M A) (k : A -> M B) (s s' : Inscriber) (b : B) :
  mbind m k s = (Ok b, s') ->
  exists a s1, m s = (Ok a, s1) /\ k a s1 = (Ok b, s').
Proof.
  unfold mbind. destruct (m s) as [[a | e] s1]; [eauto | discriminate].
Qed.

Lemma modify_Ok (f : Inscriber -> Inscriber) (s s' : Inscriber) (u : unit) :
  modify f s = (Ok u, s') -> s' = f s.
Proof. unfold modify. intros H. inversion H. reflexivity. Qed.

Lemma get_Ok (s s' a : Inscriber) :
  get s = (Ok a, s') -> a = s /\ s' = s.
Proof. unfold get. intros H. inversion H. split; reflexivity. Qed.

(** One step of a run that returned: split the first call off. *)
Ltac run_as H a s H1 :=
  apply mbind_Ok in H as (a & s & H1 & H);
  try (apply modify_Ok in H1; subst s);
  try (apply get_Ok in H1 as [-> ->]).

Tactic Notation "run" hyp(H) "as" ident(a) ident(s) ident(H1) :=
  run_as H a s H1.

Tactic Notation "run" hyp(H) :=
  let a := fresh "a" in
  let s := fresh "st" in
  let H1 := fresh "Hcall" in
  run_as H a s H1.

(** [buildWitness] reads the object and assigns [witnessScripts] only. *)
Lemma buildWitness_frame (s : Inscriber) :
  (exists w, buildWitness s = (Ok tt, set_witnessScripts w s))
  \/ (exists e, buildWitness s = (Throw e, s)).
Proof.
  cbv beta iota zeta delta [buildWitness mbind get getMetadata call ret modify].
  repeat match goal with
         | |- context [match Witness.buildWitnessScript ?o with _ => _ end] =>
             destruct (Witness.buildWitnessScript o); [| right; eauto]
         end.
  left. eauto.
Qed.

(** [buildTaprootTree] assigns [witnessScripts] and [taprootTree] only. *)
Lemma buildTaprootTree_frame (s : Inscriber) :
  (exists w t, buildTaprootTree s
               = (Ok tt, set_taprootTree t (set_witnessScripts w s)))
  \/ (exists e, buildTaprootTree s = (Throw e, s)).
Proof.
  unfold buildTaprootTree, mbind.
  destruct (buildWitness_frame s) as [[w E] | [e E]]; rewrite E.
  - left. unfold modify. exists w.
    destruct (taptreeVersion (set_witnessScripts w s)) as [[|] |];
      eexists; reflexivity.
  - right. eauto.
Qed.

Lemma build_recovery (s : Inscriber) (unspent : UTXO) (pay : Payment) :
  suitableUnspent s = Some unspent ->
  payment s = Some pay ->
  recovery s = true ->
  exists s0,
    build s = super prepare s0
    /\ outputs (base s0)
       = [{| out_address := or_string (changeAddress (base s)) (address (base s));
             out_value := sats unspent - fee (base s) |}]
    /\ recoverAmount s0 = sats unspent - fee (base s)
    /\ length (inputs (base s0)) = 1%nat
    /\ fee (base s0) = fee (base s)
    /\ commitAddress s0 = commitAddress s.
Proof.
  intros Hu Hp Hr.
  unfold build, mbind, get, modify, ret. rewrite Hu, Hp.
  cbn. rewrite Hr. cbn. rewrite Hr. cbn.
  eexists. split; [reflexivity |]. cbn. repeat split.
Qed.

Lemma preview_on_recovery (s sf : Inscriber) (pay : Payment) :
  recovery s = true ->
  payment s = Some pay ->
  preview true s = (Ok tt, sf) ->
  exists unspent rest,
    getUnspents_spendableUTXOs (nonnull_string (commitAddress s))
    = Ok (unspent :: rest)
    /\ recoverAmount sf = sats unspent - fee (base s)
    /\ commitAddress sf = commitAddress s.
Proof.
  intros Hr Hp H. unfold preview in H.
  run H. run H. run H as found s1 Hfound.
  cbn [recovery set_previewMode] in Hfound. rewrite Hr in Hfound.
  run Hfound as l s2 Hl.
  unfold call in Hl. inversion Hl; subst; clear Hl.
  unfold ret in Hfound. inversion Hfound; subst; clear Hfound.
  cbn [commitAddress set_previewMode] in H1.
  run H. cbn [recovery set_previewMode] in H. rewrite Hr in H.
  destruct l as [| unspent rest]; [discriminate |].
  cbn [hd_error] in H. run H.
  match type of H with
  | build ?st = _ =>
      destruct (@build_recovery st unspent pay eq_refl Hp Hr)
        as (s0 & Eb & _ & Hamt & _ & _ & Hca)
  end.
  rewrite Eb in H. unfold super in H.
  destruct (prepare (base s0)) as [[[] | e] b1]; [| discriminate].
  inversion H; subst; clear H.
  exists unspent, rest. repeat split; assumption.
Qed.

Lemma preview_off (s : Inscriber) :
  exists sf,
    preview false s = (Ok tt, sf)
    /\ recoverAmount sf = recoverAmount s
    /\ commitAddress sf = commitAddress s
    /\ fee (base sf) = fee (initPSBT (base s)).
Proof. eexists. split; [reflexivity |]. repeat split. Qed.

Lemma calculateNetworkFee_recovery (s sf : Inscriber) (pay : Payment) :
  recovery s = true ->
  payment s = Some pay ->
  calculateNetworkFeeUsingPreviewMode s = (Ok tt, sf) ->
  exists unspent rest,
    getUnspents_spendableUTXOs (nonnull_string (commitAddress s))
    = Ok (unspent :: rest)
    /\ recoverAmount sf = sats unspent - fee (base s)
    /\ commitAddress sf = commitAddress s.
Proof.
  intros Hr Hp H. unfold calculateNetworkFeeUsingPreviewMode in H.
  run H as u1 s1 Hon. destruct u1. run H.
  destruct (@preview_on_recovery s s1 pay Hr Hp Hon)
    as (unspent & rest & EU & Hamt & Hca).
  destruct (preview_off (set_base (calculateNetworkFee (base s1)) s1))
    as (s2 & Eoff & Hamt' & Hca' & _).
  rewrite Eoff in H. inversion H; subst; clear H.
  exists unspent, rest.
  rewrite Hamt', Hca'.
  change (recoverAmount (set_base (calculateNetworkFee (base s1)) s1))
    with (recoverAmount s1).
  change (commitAddress (set_base (calculateNetworkFee (base s1)) s1))
    with (commitAddress s1).
  repeat split; assumption.
Qed.

Lemma payment_set_payment (p : option Payment) (s : Inscriber) :
  payment (set_payment p s) = p.
Proof. reflexivity. Qed.

Lemma recover_reports (s s' : Inscriber) (r : Recovered) :
  recover s = (Ok r, s') ->
  exists unspent rest,
    getUnspents_spendableUTXOs (nonnull_string (commitAddress s'))
    = Ok (unspent :: rest)
    /\ recoverFee r = fee (base s')
    /\ recoverAmount_ r = sats unspent - fee (base s) - recoverFee r
    /\ recoverAddress r
       = or_string (changeAddress (base s')) (address (base s')).
Proof.
  intros H. unfold recover in H.
  run H. run H as u1 s1 Htree.
  destruct (buildTaprootTree_frame (set_recovery true s))
    as [(w & t & E) | (e & E)]; rewrite E in Htree; [| discriminate].
  inversion Htree; subst; clear Htree E.
  run H. run H. rewrite payment_set_payment in H.
  run H. run H as u2 s2 Hfee. destruct u2.
  eapply calculateNetworkFee_recovery in Hfee; [| reflexivity | reflexivity].
  destruct Hfee as (unspent & rest & EU & Hamt & Hca).
  run H. unfold ret in H. inversion H; subst; clear H.
  cbn [recoverFee recoverAmount_ recoverAddress].
  exists unspent, rest.
  rewrite Hamt, Hca.
  repeat split. exact EU.
Qed.

Lemma isBuilt_Ok (s : Inscriber) :
  truthy_string (nonnull_string (commitAddress s)) = true ->
  fee (base s) <> 0 ->
  isBuilt s = (Ok tt, s).
Proof.
  intros Ha Hf. unfold isBuilt, mbind, get. rewrite Ha.
  destruct (Z.eqb_spec (fee (base s)) 0); [contradiction | reflexivity].
Qed.

(** C2 as amended.  Outside preview mode, once the commit address and the
    fee are set, a required amount below [MINIMUM_AMOUNT_IN_SATS] makes
    [fetchAndSelectSuitableUnspent] throw [BelowDustLimit], the object
    unchanged.  [isReady] does not throw it: it catches the error and
    returns the boolean [ready] ([false] when the object is not ready yet,
    and [true], without any check of the amount, when it is). *)
Theorem below_dust_limit (o : SkipStrictSatsCheckOptions) (s : Inscriber) :
  previewMode s = false ->
  truthy_string (nonnull_string (commitAddress s)) = true ->
  fee (base s) <> 0 ->
  requiredAmount o s < MINIMUM_AMOUNT_IN_SATS ->
  fetchAndSelectSuitableUnspent o s = (Throw BelowDustLimit, s)
  /\ isReady o s = (Ok (ready s), s).
Proof.
  intros Hp Ha Hf Hlt.
  assert (Hfetch : fetchAndSelectSuitableUnspent o s = (Throw BelowDustLimit, s)).
  { unfold fetchAndSelectSuitableUnspent, restrictUsageInPreviewMode.
    unfold mbind at 1. unfold mbind at 1, get at 1. rewrite Hp.
    unfold ret at 1. unfold mbind at 1. rewrite (@isBuilt_Ok s Ha Hf).
    unfold mbind, get.
    destruct (Z.ltb_spec (requiredAmount o s) MINIMUM_AMOUNT_IN_SATS);
      [reflexivity | lia]. }
  split; [exact Hfetch |].
  unfold isReady. unfold mbind at 1. rewrite (@isBuilt_Ok s Ha Hf).
  unfold mbind at 1, get at 1. unfold mbind at 1.
  destruct (ready s) eqn:Hready; cbn [negb].
  - unfold ret at 1. unfold mbind, get, ret. rewrite Hready. reflexivity.
  - unfold try_. unfold mbind at 1. rewrite Hfetch. reflexivity.
Qed.

End WithSdk.
End InscriberFacts.

(** *** The orchestrator on concrete inputs *)

Module InscriberExamples.
Import Inscriber InscriberFacts.

#[local] Existing Instance Reference.platform.

Local Open Scope Z_scope.

Definition set_fee {T} (v : Z) (b : Builder T) : Builder T :=
  {| address := address b; changeAddress := changeAddress b;
     feeRate := feeRate b; network := network b; xKey := xKey b;
     inputs := inputs b; outputs := outputs b; fee := v;
     virtualSize := virtualSize b; weight := weight b;
     changeAmount := changeAmount b; inputAmount := inputAmount b;
     outputAmount := outputAmount b; witness := witness b; psbt := psbt b |}.

Definition set_outputAmount {T} (v : Z) (b : Builder T) : Builder T :=
  {| address := address b; changeAddress := changeAddress b;
     feeRate := feeRate b; network := network b; xKey := xKey b;
     inputs := inputs b; outputs := outputs b; fee := fee b;
     virtualSize := virtualSize b; weight := weight b;
     changeAmount := changeAmount b; inputAmount := inputAmount b;
     outputAmount := v; witness := witness b; psbt := psbt b |}.

Definition commit_address : string := "tb1p-commit".

(** The output of 10000 sats that funds the commit address. *)
Definition funding : UTXO :=
  {| txid := "f0"; n := 0; sats := 10000;
     scriptPubKey := {| spk_type := "witness_v1_taproot";
                        spk_address := commit_address;
                        spk_hex := "5120" |} |}.

Definition a_payment (redeem : Redeem) : Payment :=
  {| pay_address := commit_address; pay_output := [];
     pay_redeemVersion := 192; pay_redeem := redeem;
     pay_witness := [redeem_output redeem; []] |}.

(** Modelled from the spec: the methods that [Inscriber] inherits from
    [PSBTBuilder] and [FeeEstimator], the data source and the constant
    [MINIMUM_AMOUNT_IN_SATS], none of which is among the sources.  The fee is
    the virtual size times the fee rate; [prepare] totals the outputs; the
    data source knows the one output [funding] at the commit address; the
    dust limit is 600 sats. *)
#[export] Instance sdk : Sdk := {|
  PsbtState := unit;
  MINIMUM_AMOUNT_IN_SATS := 600;
  prepare := fun b =>
    (Ok tt,
     set_outputAmount
       (fold_left (fun acc o => acc + out_value o) (outputs b) 0) b);
  initPSBT := fun b => b;
  calculateNetworkFee := fun b => set_fee (virtualSize b * feeRate b) b;
  retrieveSelectedUTXOs := fun b _ amount =>
    (Ok (filter (fun u => amount <=? sats u) [funding]), b);
  getUnspents_spendableUTXOs := fun _ => Ok [funding];
  getDummyP2TRInput :=
    {| txid := "00"; n := 0; sats := 0;
       scriptPubKey := {| spk_type := "witness_v1_taproot";
                          spk_address := ""; spk_hex := "5120" |} |};
  payments_p2tr := fun _ _ _ redeem => a_payment redeem;
  createTransaction_p2tr := fun _ _ _ redeem => a_payment redeem
|}.

(** A new [Inscriber] carrying [postage] sats: nothing built, the fee 0; the
    transaction will have a virtual size of 150 at 2 sats per byte. *)
Definition new_Inscriber (postage_ : Z) : Inscriber :=
  {| base := {| address := "tb1p-owner"; changeAddress := "tb1p-change";
                feeRate := 2; network := "testnet"; xKey := "aabb";
                inputs := []; outputs := []; fee := 0; virtualSize := 150;
                weight := 600; changeAmount := 0; inputAmount := 0;
                outputAmount := 0; witness := []; psbt := tt |};
     mediaType := Some (Witness.TOne "text/plain");
     mediaContent := Some (Witness.COne (CStr "hello"));
     meta := None; taptreeVersion := None; postage := postage_;
     ready := false; commitAddress := None;
     destinationAddress := "tb1p-owner"; payment := None;
     suitableUnspent := None; recovery := false; recoverAmount := 0;
     encodeMetadata := false; previewMode := false;
     witnessScripts := {| ws_inscription := None; ws_inscriptionOnly := None;
                          ws_recovery := None |};
     taprootTree := None |}.

Definition no_options : SkipStrictSatsCheckOptions :=
  {| skipStrictSatsCheck := None; customAmount := None |}.

(** The object after [m] has run on it. *)
Definition after {A : Type} (m : M A) (s : Inscriber) : Inscriber := snd (m s).

(** On a new object [recover] reports the 10000 sats less the fee of 300. *)
Example recover_new :
  fst (recover (new_Inscriber 1000))
  = Ok {| recoverAddress := "tb1p-change"; recoverAmount_ := 9700;
          recoverFee := 300 |}.
Proof. vm_compute. reflexivity. Qed.

(** ... and the [build] that follows, once [isReady] has found the output,
    leaves exactly one output, of 9700 sats to the change address. *)
Example build_after_recover :
  let s := after build (after (isReady no_options)
                          (after recover (new_Inscriber 1000))) in
  outputs (base s) = [{| out_address := "tb1p-change"; out_value := 9700 |}].
Proof. vm_compute. reflexivity. Qed.

(** C1 fails on the code.  [generateCommit] leaves the fee of the reveal
    transaction, 300, in the object.  Called on the same object, with the
    commit address funded by 10000 sats and a recovery fee of 300, [recover]
    reports 9400: the funding value less the fee held before less the
    recovery fee, not 10000 - 300 = 9700.  A second [recover] on an object
    that has run [recover] does the same. *)
Theorem recover_subtracts_held_fee :
  fee (base (after generateCommit (new_Inscriber 1000))) = 300
  /\ fst (recover (after generateCommit (new_Inscriber 1000)))
     = Ok {| recoverAddress := "tb1p-change"; recoverAmount_ := 9400;
             recoverFee := 300 |}
  /\ fst (recover (after recover (new_Inscriber 1000)))
     = Ok {| recoverAddress := "tb1p-change"; recoverAmount_ := 9400;
             recoverFee := 300 |}
  /\ 9400 <> sats funding - 300.
Proof. repeat split; try (vm_compute; reflexivity). vm_compute. discriminate. Qed.

(** C2 as stated fails.  An inscription carrying 100 sats needs
    100 + 300 = 400 sats, which is under the dust limit of 600;
    [fetchAndSelectSuitableUnspent] throws [BelowDustLimit], but [isReady]
    returns [false]. *)
Lemma isReady_returns_false_below_dust :
  let s := after generateCommit (new_Inscriber 100) in
  requiredAmount no_options s = 400
  /\ fst (fetchAndSelectSuitableUnspent no_options s) = Throw BelowDustLimit
  /\ fst (isReady no_options s) = Ok false
  /\ fst (isReady no_options s) <> Throw BelowDustLimit.
Proof. repeat split; try (vm_compute; reflexivity). vm_compute. discriminate. Qed.

Lemma below_dust_limit_witness :
  let s := after generateCommit (new_Inscriber 100) in
  fetchAndSelectSuitableUnspent no_options s = (Throw BelowDustLimit, s)
  /\ isReady no_options s = (Ok (ready s), s).
Proof.
  apply (@below_dust_limit Reference.platform sdk no_options
           (after generateCommit (new_Inscriber 100))).
  - vm_compute. reflexivity.
  - vm_compute. reflexivity.
  - vm_compute. discriminate.
  - vm_compute. reflexivity.
Defined.

End InscriberExamples.

(** ** The PSBT assembler *)

Module PsbtFacts.
Import Psbt.

Section WithSdk.

Context {P : Platform} {sdk : Sdk}.

Local Open Scope Z_scope.

(** The previous output that an input spends. *)
Definition outpoint (i : PsbtInput) : string * Z :=
  (input_hash (payload i), input_index (payload i)).

(** [utxo.scriptPubKey.address === address] *)
Definition at_funding_address (o : CreatePsbtOptions) (utxo : UTXO) : bool :=
  String.eqb (spk_address (scriptPubKey utxo)) (funding_address o).

Lemma processInput_outpoint (utxo : UTXO) (pk net : string)
  (sh : option Z) (w : option (list Buffer)) (i : InputType) :
  processInput utxo pk net sh w = Ok i ->
  input_hash i = txid utxo /\ input_index i = n utxo.
Proof.
  unfold processInput, generateTaprootInput, generateSegwitInput,
    generateNestedSegwitInput, generateLegacyInput, bind.
  repeat match goal with
         | |- context [if ?c then _ else _] => destruct c
         | |- context [match ?x with _ => _ end] => destruct x
         end;
    intros H; inversion H; subst; split; reflexivity.
Qed.

Lemma set_nth_sequence_last (l : list PsbtInput) (x : PsbtInput) (v : Z) :
  set_nth_sequence (l ++ [x]) (length l) v
  = l ++ [{| payload := payload x; sequence := v |}].
Proof.
  induction l as [| y l IH]; [reflexivity |].
  cbn. rewrite IH. reflexivity.
Qed.

(** What the loop over [spendableUTXOs] adds to the psbt, when it ends
    without an error: one input per unspent output at the funding address,
    in order, each with the sequence number that the loop gives it. *)
Lemma add_inputs_spec (o : CreatePsbtOptions) (rbf : bool) (utxos : list UTXO) :
  forall (index : nat) (psbt psbt' : Psbt) (w w' : list Buffer),
    (length (psbt_inputs psbt) <= index)%nat ->
    add_inputs o rbf index utxos psbt w = Ok (psbt', w') ->
    exists added,
      psbt_inputs psbt' = psbt_inputs psbt ++ added
      /\ psbt_outputs psbt' = psbt_outputs psbt
      /\ map outpoint added
         = map (fun u => (txid u, n u)) (filter (at_funding_address o) utxos)
      /\ Forall (fun i => sequence i = if rbf then 0xfffffffd else MAX_SEQUENCE)
           added.
Proof.
  induction utxos as [| utxo rest IH]; intros index psbt psbt' w w' Hlen H.
  - cbn in H. inversion H; subst. exists []. rewrite app_nil_r.
    repeat split. constructor.
  - cbn [add_inputs] in H. cbn [filter]. unfold at_funding_address at 1.
    destruct (String.eqb (spk_address (scriptPubKey utxo)) (funding_address o));
      cbn [negb] in H.
    + destruct (processInput utxo (pubKey o) (network o) None None)
        as [i | e] eqn:Ei; [| discriminate].
      cbn [bind] in H.
      destruct (processInput_outpoint _ _ _ _ _ Ei) as [Hh Hi].
      destruct rbf.
      * unfold setInputSequence in H. cbn [addInput psbt_inputs] in H.
        rewrite length_app in H. cbn [length] in H.
        destruct (Nat.leb_spec (length (psbt_inputs psbt) + 1) index);
          [discriminate |].
        cbn [bind psbt_outputs] in H.
        assert (index = length (psbt_inputs psbt)) by lia. subst index.
        rewrite set_nth_sequence_last in H.
        apply IH in H;
          [| cbn [psbt_inputs]; rewrite length_app; cbn [length]; lia].
        destruct H as (added & Hin & Hout & Hmap & Hseq).
        cbn [psbt_inputs psbt_outputs payload] in Hin, Hout.
        exists ({| payload := i; sequence := 0xfffffffd |} :: added).
        rewrite Hin, <- app_assoc. repeat split; try assumption.
        -- cbn [map]. rewrite Hmap. unfold outpoint. cbn [payload].
           rewrite Hh, Hi. reflexivity.
        -- constructor; [reflexivity | assumption].
      * cbn [bind] in H.
        apply IH in H;
          [| cbn [addInput psbt_inputs]; rewrite length_app; cbn [length]; lia].
        destruct H as (added & Hin & Hout & Hmap & Hseq).
        cbn [addInput psbt_inputs psbt_outputs] in Hin, Hout.
        exists ({| payload := i; sequence := MAX_SEQUENCE |} :: added).
        rewrite Hin, <- app_assoc. repeat split; try assumption.
        -- cbn [map]. rewrite Hmap. unfold outpoint. cbn [payload].
           rewrite Hh, Hi. reflexivity.
        -- constructor; [reflexivity | assumption].
    + apply IH in H; [| lia]. exact H.
Qed.

Lemma add_outputs_spec (outs : list OutputRequest) :
  forall psbt : Psbt,
    let psbt' := fold_left (fun p out => addOutput p (address out, cardinals out))
                   outs psbt in
    psbt_inputs psbt' = psbt_inputs psbt
    /\ psbt_outputs psbt'
       = psbt_outputs psbt ++ map (fun out => (address out, cardinals out)) outs.
Proof.
  induction outs as [| out outs IH]; intros psbt; cbn.
  - rewrite app_nil_r. split; reflexivity.
  - destruct (IH (addOutput psbt (address out, cardinals out))) as [Hi Ho].
    cbn zeta in Hi, Ho. rewrite Hi, Ho. cbn [addOutput psbt_inputs psbt_outputs].
    rewrite <- app_assoc. split; reflexivity.
Qed.

Lemma sum_sats_acc (l : list UTXO) (acc : Z) :
  fold_left (fun a utxo => a + sats utxo) l acc = acc + sum_sats l.
Proof.
  unfold sum_sats. revert acc.
  induction l as [| u l IH]; intros acc; cbn; [lia |].
  rewrite IH, (IH (sats u)). lia.
Qed.

Lemma sum_sats_app (l1 l2 : list UTXO) :
  sum_sats (l1 ++ l2) = sum_sats l1 + sum_sats l2.
Proof.
  unfold sum_sats at 1. rewrite fold_left_app. rewrite sum_sats_acc.
  reflexivity.
Qed.

(** What [createPsbt] returns, when it returns. *)
Lemma createPsbt_spec (o : CreatePsbtOptions) (psbt : Psbt) :
  createPsbt o = Ok psbt ->
  exists u,
    fetchUnspentUTXOs (funding_address o) (network o)
      (if safeMode_is_off o then "all" else "spendable")%string = Ok u
    /\ map outpoint (psbt_inputs psbt)
       = map (fun x => (txid x, n x))
           (filter (at_funding_address o) (spendableUTXOs u))
    /\ Forall (fun i => sequence i
                        = if rbf_enabled o then 0xfffffffd else MAX_SEQUENCE)
         (psbt_inputs psbt)
    /\ let fee := FeeEstimator_calculateNetworkFee
                    {| psbt_inputs := psbt_inputs psbt; psbt_outputs := [] |}
                    (satsPerByte o) (network o) in
       let remainingBalance := inputSats o u - sum_cardinals (outputs o) - fee in
       0 <= remainingBalance
       /\ psbt_outputs psbt
          = map (fun out => (address out, cardinals out)) (outputs o)
              ++ (if MINIMUM_AMOUNT_IN_SATS <? remainingBalance
                  then [(funding_address o, remainingBalance)]
                  else []).
Proof.
  unfold createPsbt. intros H.
  destruct (length (outputs o) =? 0)%nat; [discriminate |].
  destruct (fetchUnspentUTXOs _ _ _) as [u | e] eqn:Eu; [| discriminate].
  cbn [bind] in H.
  destruct (totalUTXOs u =? 0); [discriminate |].
  destruct (add_inputs o (rbf_enabled o) 0 (spendableUTXOs u) new_Psbt [])
    as [[p w] | e] eqn:Ea; [| discriminate].
  cbn [bind fst] in H.
  destruct (@add_inputs_spec o (rbf_enabled o) (spendableUTXOs u) 0%nat
              new_Psbt p [] w (Nat.le_refl _) Ea)
    as (added & Hin & Hout & Hmap & Hseq).
  cbn [new_Psbt psbt_inputs psbt_outputs app] in Hin, Hout.
  assert (Hp : p = {| psbt_inputs := added; psbt_outputs := [] |})
    by (destruct p; cbn in Hin, Hout; subst; reflexivity).
  subst p.
  remember (FeeEstimator_calculateNetworkFee
              {| psbt_inputs := added; psbt_outputs := [] |}
              (satsPerByte o) (network o)) as fee eqn:Efee.
  destruct (Z.ltb_spec (inputSats o u - sum_cardinals (outputs o) - fee) 0);
    [discriminate |].
  inversion H as [Hpsbt]; clear H.
  exists u. split; [reflexivity |].
  match goal with
  | |- context [fold_left ?f ?outs ?p0] =>
      destruct (@add_outputs_spec outs p0) as [Hi Ho]
  end.
  cbn zeta in Hi, Ho. cbn [psbt_inputs psbt_outputs app] in Hi, Ho.
  rewrite Hi, Ho, <- Efee.
  split; [exact Hmap |]. split; [exact Hseq |].
  cbn zeta. split; [assumption |].
  destruct (MINIMUM_AMOUNT_IN_SATS <? inputSats o u - sum_cardinals (outputs o) - fee).
  - rewrite map_app. reflexivity.
  - rewrite app_nil_r. reflexivity.
Qed.

(** C7 as amended.  When replace-by-fee is requested (it is, unless
    [enableRBF] is [false]) and [createPsbt] returns a PSBT, every input of
    it has the sequence number [0xfffffffd], which is two below the largest
    sequence number [0xffffffff]. *)
Theorem createPsbt_rbf_sequence (o : CreatePsbtOptions) (psbt : Psbt) :
  rbf_enabled o = true ->
  createPsbt o = Ok psbt ->
  Forall (fun i => sequence i = 0xfffffffd) (psbt_inputs psbt)
  /\ 0xfffffffd = MAX_SEQUENCE - 2.
Proof.
  intros Hrbf H.
  destruct (createPsbt_spec o H) as (u & _ & _ & Hseq & _).
  rewrite Hrbf in Hseq. split; [exact Hseq | reflexivity].
Qed.

(** C10.  The inputs of a PSBT that [createPsbt] returns are, in order, the
    spendable outputs at the funding address: each input spends one of them,
    and nothing else is an input, whatever [safeMode] is.  The sum of inputs
    that the balance check and the change use is the total of all the
    spendable outputs plus, when [safeMode] is "off", the total of the
    unspendable ones: it is at least the outputs plus the fee, and what is
    left goes to a change output when it is above the dust limit. *)
Theorem createPsbt_inputs (o : CreatePsbtOptions) (psbt : Psbt) :
  createPsbt o = Ok psbt ->
  exists u,
    fetchUnspentUTXOs (funding_address o) (network o)
      (if safeMode_is_off o then "all" else "spendable")%string = Ok u
    /\ map outpoint (psbt_inputs psbt)
       = map (fun x => (txid x, n x))
           (filter (at_funding_address o) (spendableUTXOs u))
    /\ (forall i, In i (psbt_inputs psbt) ->
        exists utxo,
          In utxo (spendableUTXOs u)
          /\ spk_address (scriptPubKey utxo) = funding_address o
          /\ input_hash (payload i) = txid utxo
          /\ input_index (payload i) = n utxo)
    /\ let total :=
         sum_sats (spendableUTXOs u)
         + (if safeMode_is_off o then sum_sats (unspendableUTXOs u) else 0) in
       let fee := FeeEstimator_calculateNetworkFee
                    {| psbt_inputs := psbt_inputs psbt; psbt_outputs := [] |}
                    (satsPerByte o) (network o) in
       let remainingBalance := total - sum_cardinals (outputs o) - fee in
       0 <= remainingBalance
       /\ psbt_outputs psbt
          = map (fun out => (address out, cardinals out)) (outputs o)
              ++ (if MINIMUM_AMOUNT_IN_SATS <? remainingBalance
                  then [(funding_address o, remainingBalance)]
                  else []).
Proof.
  intros H.
  destruct (createPsbt_spec o H) as (u & Eu & Hmap & _ & Hbal).
  exists u. split; [exact Eu |]. split; [exact Hmap |]. split.
  - intros i Hi.
    apply (in_map outpoint) in Hi. rewrite Hmap in Hi.
    apply in_map_iff in Hi as (utxo & Heq & Hin).
    apply filter_In in Hin as [Hin Haddr].
    unfold at_funding_address in Haddr. apply String.eqb_eq in Haddr.
    unfold outpoint in Heq. inversion Heq.
    exists utxo. repeat split; auto.
  - cbn zeta in Hbal |- *.
    assert (Hsum : inputSats o u
                   = sum_sats (spendableUTXOs u)
                     + (if safeMode_is_off o
                        then sum_sats (unspendableUTXOs u) else 0)).
    { unfold inputSats. rewrite sum_sats_app.
      destruct (safeMode_is_off o); reflexivity. }
    rewrite <- Hsum. exact Hbal.
Qed.

End WithSdk.
End PsbtFacts.

(** *** The assembler on concrete inputs *)

Module PsbtExamples.
Import Psbt PsbtFacts.

#[local] Existing Instance Reference.platform.

Local Open Scope Z_scope.

Definition utxo_at (address_ type_ txid_ : string) (n_ sats_ : Z) : UTXO :=
  {| txid := txid_; n := n_; sats := sats_;
     scriptPubKey := {| spk_type := type_; spk_address := address_;
                        spk_hex := "0014aa" |} |}.

(** Modelled from the spec: [OrditApi], [FeeEstimator], the key helpers and
    the constant [MINIMUM_AMOUNT_IN_SATS], none of which is among the
    sources.  The address "me" holds two spendable outputs and, listed only
    when all outputs are asked for, an unspendable one; the address "mixed"
    is answered with an output of another address before its own.  The fee
    is 100 virtual bytes at the fee rate; the dust limit is 600 sats. *)
#[export] Instance sdk : Sdk := {|
  MINIMUM_AMOUNT_IN_SATS := 600;
  fetchUnspentUTXOs := fun address_ _ type_ =>
    if String.eqb address_ "me" then
      Ok {| spendableUTXOs :=
              [utxo_at "me" "witness_v0_keyhash" "a1" 0 5000;
               utxo_at "me" "witness_v1_taproot" "a2" 1 3000];
            unspendableUTXOs :=
              if String.eqb type_ "all"
              then [utxo_at "me" "witness_v1_taproot" "b1" 0 10000]
              else [];
            totalUTXOs := if String.eqb type_ "all" then 3 else 2 |}
    else
      Ok {| spendableUTXOs :=
              [utxo_at "other" "witness_v0_keyhash" "c1" 0 5000;
               utxo_at "mixed" "witness_v0_keyhash" "c2" 0 5000];
            unspendableUTXOs := [];
            totalUTXOs := 2 |};
  fetchTx_rawTx := fun _ _ => Ok (Some []);
  FeeEstimator_calculateNetworkFee := fun _ rate _ => 100 * rate;
  xOnlyPubKey := fun pk _ => Ok (skipn 1 (Buffer_from_hex pk));
  p2sh_redeem_output := fun pk _ => Some (Buffer_from_hex pk)
|}.

Definition request (address_ : string) (safe : option OnOffUnion) : CreatePsbtOptions :=
  {| satsPerByte := 2; funding_address := address_;
     outputs := [{| address := "you"; cardinals := 4000 |}];
     enableRBF := None; pubKey := "02aabb"; network := "testnet";
     safeMode := safe |}.

(** C7 as stated fails.  The two inputs of this PSBT, made with
    replace-by-fee on, have the sequence number 4294967293, which is not one
    below the largest sequence number 4294967295. *)
Lemma createPsbt_sequence_not_one_below_max :
  rmap (fun p => map sequence (psbt_inputs p)) (createPsbt (request "me" None))
  = Ok [4294967293; 4294967293]
  /\ 4294967293 <> MAX_SEQUENCE - 1.
Proof. split; [vm_compute; reflexivity | vm_compute; discriminate]. Qed.

Lemma createPsbt_rbf_sequence_witness :
  exists psbt,
    createPsbt (request "me" None) = Ok psbt
    /\ Forall (fun i => sequence i = 0xfffffffd) (psbt_inputs psbt).
Proof.
  destruct (createPsbt (request "me" None)) as [psbt | e] eqn:E;
    [| vm_compute in E; discriminate E].
  exists psbt. split; [reflexivity |].
  exact (proj1 (@createPsbt_rbf_sequence Reference.platform sdk
                  (request "me" None) psbt eq_refl E)).
Defined.

(** With [safeMode] "off" the unspendable 10000 sats count in the balance
    (18000 - 4000 - 200 = 13800 sats of change), though the two inputs carry
    8000 sats. *)
Example createPsbt_safeMode_off :
  rmap (fun p => (map outpoint (psbt_inputs p), psbt_outputs p))
    (createPsbt (request "me" (Some off)))
  = Ok ([("a1"%string, 0); ("a2"%string, 1)],
        [("you"%string, 4000); ("me"%string, 13800)]).
Proof. vm_compute. reflexivity. Qed.

Lemma createPsbt_inputs_witness :
  exists psbt u,
    createPsbt (request "me" (Some off)) = Ok psbt
    /\ map outpoint (psbt_inputs psbt)
       = map (fun x => (txid x, n x))
           (filter (at_funding_address (request "me" (Some off)))
              (spendableUTXOs u)).
Proof.
  destruct (createPsbt (request "me" (Some off))) as [psbt | e] eqn:E;
    [| vm_compute in E; discriminate E].
  destruct (@createPsbt_inputs Reference.platform sdk
              (request "me" (Some off)) psbt E)
    as (u & _ & Hmap & _).
  exists psbt, u. split; [reflexivity | exact Hmap].
Defined.

(** When an output of another address comes before one of the funding
    address, the position in [spendableUTXOs] is no longer the position of
    the input in the psbt, and [setInputSequence] throws. *)
Example createPsbt_skipped_output :
  createPsbt (request "mixed" None) = Throw InputIndexTooHigh.
Proof. vm_compute. reflexivity. Qed.

End PsbtExamples.

(** ** The balance gate *)

Module BRC20Facts.
Import BRC20.

Local Open Scope Z_scope.

(** C8.  When the ledger's record of the holder for the ticker is
    [{total, available, transferable}], [hasEnoughTransferableBalance]
    returns [transferable >= amount] and [hasEnoughOverallBalance] returns
    [available >= amount]; and either of them throws only an error that
    [getBalances] throws. *)
Theorem hasEnoughBalance_spec
  (getAddressTokens : string -> Result (list TokenBalance))
  (address tick_ : string) (amount : Z)
  (balances : list TokenBalance) (record : TokenBalance) :
  getAddressTokens address = Ok balances ->
  find (fun b => String.eqb (tick b) tick_) balances = Some record ->
  hasEnoughTransferableBalance getAddressTokens address amount tick_
  = Ok (transferable record >=? amount)
  /\ hasEnoughOverallBalance getAddressTokens address amount tick_
     = Ok (available record >=? amount)
  /\ (forall tokens address' amount' tick' e,
        hasEnoughTransferableBalance tokens address' amount' tick' = Throw e
        \/ hasEnoughOverallBalance tokens address' amount' tick' = Throw e ->
        getBalances tokens address' tick' = Throw e).
Proof.
  intros Hget Hfind.
  unfold hasEnoughTransferableBalance, hasEnoughOverallBalance, getBalances.
  rewrite Hget. cbn [bind]. rewrite Hfind. cbn [bind b_transferable b_available].
  split; [reflexivity |]. split; [reflexivity |].
  intros tokens address' amount' tick' e.
  destruct (tokens address') as [l | e']; cbn [bind].
  - destruct (find _ l); cbn; intros [H | H];
      try discriminate H; inversion H; reflexivity.
  - intros [H | H]; inversion H; reflexivity.
Qed.

(** The ledger of the specification's example. *)
Definition ledger (address : string) : Result (list TokenBalance) :=
  if String.eqb address "holder"
  then Ok [{| tick := "ordi"; total := 1000; available := 700;
              transferable := 500 |}]
  else Throw (External "no such address").

Lemma hasEnoughBalance_witness :
  hasEnoughTransferableBalance ledger "holder" 600 "ordi" = Ok false
  /\ hasEnoughOverallBalance ledger "holder" 600 "ordi" = Ok true.
Proof.
  destruct (@hasEnoughBalance_spec ledger "holder" "ordi" 600
              [{| tick := "ordi"; total := 1000; available := 700;
                  transferable := 500 |}]
              {| tick := "ordi"; total := 1000; available := 700;
                 transferable := 500 |} eq_refl eq_refl)
    as (Ht & Ho & _).
  split; [exact Ht | exact Ho].
Defined.

Example no_record_for_ticker :
  hasEnoughTransferableBalance ledger "holder" 600 "sats" = Throw NoBalance.
Proof. reflexivity. Qed.

End BRC20Facts.


(** * Further properties of the code *)

(** ** Chunks as slices *)

Section ChunkSlices.

Variable M : nat.
Hypothesis M_pos : 0 < M.

Lemma chunk_loop_step (buf : Buffer) (acc : list Buffer) (c : nat) :
  chunk_loop M_pos buf acc c
  = if lt_dec c (length buf)
    then chunk_loop M_pos buf (acc ++ [subarray buf c (c + M)])
           (c + length (subarray buf c (c + M)))
    else acc.
Proof.
  funelim (chunk_loop M_pos buf acc c).
  - destruct (lt_dec chunkedBytes (length contentBuffer)); [| contradiction].
    reflexivity.
  - destruct (lt_dec chunkedBytes (length contentBuffer)); [contradiction |].
    reflexivity.
Qed.

(** The chunks already made stay in front of the ones the loop adds. *)
Lemma chunk_loop_acc (buf : Buffer) :
  forall (k c : nat) (acc : list Buffer),
    length buf - c <= k ->
    chunk_loop M_pos buf acc c = acc ++ chunk_loop M_pos buf [] c.
Proof.
  induction k as [| k IH]; intros c acc Hk.
  - rewrite (chunk_loop_step buf acc), (chunk_loop_step buf []).
    destruct (lt_dec c (length buf)); [lia |].
    rewrite app_nil_r. reflexivity.
  - rewrite (chunk_loop_step buf acc), (chunk_loop_step buf []).
    destruct (lt_dec c (length buf)) as [Hlt |]; [| rewrite app_nil_r; reflexivity].
    assert (Hpos : 0 < length (subarray buf c (c + M)))
      by (rewrite subarray_length by exact M_pos; lia).
    rewrite (IH _ (acc ++ _)) by lia.
    rewrite (IH _ ([] ++ _)) by lia.
    rewrite <- app_assoc. reflexivity.
Qed.

Lemma chunk_loop_cons (buf : Buffer) (c : nat) :
  c < length buf ->
  chunk_loop M_pos buf [] c
  = subarray buf c (c + M)
      :: chunk_loop M_pos buf [] (c + Nat.min M (length buf - c)).
Proof.
  intros Hlt. rewrite chunk_loop_step.
  destruct (lt_dec c (length buf)); [| contradiction].
  rewrite (@chunk_loop_acc buf (length buf) _ ([] ++ _)) by lia.
  rewrite subarray_length by exact M_pos. reflexivity.
Qed.

Lemma chunk_loop_nth (buf : Buffer) :
  forall (i c : nat),
    c + i * M < length buf ->
    nth_error (chunk_loop M_pos buf [] c) i
    = Some (subarray buf (c + i * M) (c + i * M + M)).
Proof.
  induction i as [| i IH]; intros c Hlt.
  - rewrite chunk_loop_cons by lia. cbn. rewrite Nat.add_0_r. reflexivity.
  - rewrite chunk_loop_cons by lia. cbn [nth_error].
    rewrite Nat.min_l by (cbn in Hlt; lia).
    rewrite IH by (cbn in Hlt; lia).
    cbn [Nat.mul]. f_equal. f_equal; lia.
Qed.

End ChunkSlices.

Module WitnessMore.
Import Witness WitnessFacts.

Section WithPlatform.

Context {P : Platform}.

Lemma chunkContent_slice (str : Content) (encoding : BufferEncoding) (i : nat) :
  nth_error (chunkContent str encoding) i
  = if i * 520 <? length (Buffer_from str encoding)
    then Some (subarray (Buffer_from str encoding) (i * 520) (i * 520 + 520))
    else None.
Proof.
  destruct (Nat.ltb_spec (i * 520) (length (Buffer_from str encoding)))
    as [Hlt | Hge].
  - unfold chunkContent, Buffer_isBuffer_of_Buffer.
    pose proof (@chunk_loop_nth 520 MAXIMUM_SCRIPT_ELEMENT_SIZE_pos
                  (Buffer_from str encoding) i 0) as H.
    cbn [Nat.add] in H. apply H. exact Hlt.
  - apply nth_error_None.
    destruct (chunkContent_spec str encoding) as (_ & Hlen & _).
    rewrite Hlen.
    pose proof (@ceil_div_bounds MAXIMUM_SCRIPT_ELEMENT_SIZE
                  MAXIMUM_SCRIPT_ELEMENT_SIZE_pos
                  (length (Buffer_from str encoding))) as [_ Hhi].
    change MAXIMUM_SCRIPT_ELEMENT_SIZE with 520 in *.
    nia.
Qed.

(** X1.  The chunk at position [i] is the slice of the content bytes from
    [520 * i] up to [520 * i + 520] (cut at the end of the content), and
    there is a chunk at position [i] exactly when [520 * i] is inside the
    content.  So no chunk is empty, and every chunk but the last holds
    exactly 520 bytes. *)
Theorem chunkContent_nth (str : Content) (encoding : BufferEncoding) (i : nat) :
  let bytes := Buffer_from str encoding in
  let chunks := chunkContent str encoding in
  nth_error chunks i
  = (if i * 520 <? length bytes
     then Some (subarray bytes (i * 520) (i * 520 + 520))
     else None)
  /\ (forall chunk, nth_error chunks i = Some chunk ->
      0 < length chunk
      /\ length chunk = Nat.min 520 (length bytes - i * 520)
      /\ (S i < length chunks -> length chunk = 520)).
Proof.
  intros bytes chunks. subst bytes chunks.
  split; [apply chunkContent_slice |].
  intros chunk H. rewrite chunkContent_slice in H.
  destruct (Nat.ltb_spec (i * 520) (length (Buffer_from str encoding)))
    as [Hlt | Hge]; [| discriminate].
  inversion H; subst; clear H.
  assert (H520 : 0 < 520) by lia.
  rewrite subarray_length by exact H520.
  split; [lia |]. split; [reflexivity |].
  intros Hnext.
  destruct (chunkContent_spec str encoding) as (_ & Hlen & _).
  rewrite Hlen in Hnext.
  pose proof (@ceil_div_bounds MAXIMUM_SCRIPT_ELEMENT_SIZE
                MAXIMUM_SCRIPT_ELEMENT_SIZE_pos
                (length (Buffer_from str encoding))) as [_ Hhi].
  change MAXIMUM_SCRIPT_ELEMENT_SIZE with 520 in *.
  apply Nat.min_l. nia.
Qed.

(** X2.  [opPush] accepts every chunk that [chunkContent] makes and returns
    it unchanged, so pushing the chunks of any content never throws; on a
    Buffer it throws [OversizedElement] exactly when the Buffer is longer
    than 520 bytes. *)
Theorem opPush_accepts_chunks (str : Content) (encoding : BufferEncoding)
  (b : Buffer) :
  mapM (fun chunk => opPush (PBuffer chunk)) (chunkContent str encoding)
  = Ok (chunkContent str encoding)
  /\ (opPush (PBuffer b) = Throw OversizedElement <-> 520 < length b)
  /\ (opPush (PBuffer b) = Ok b <-> length b <= 520).
Proof.
  split; [apply mapM_opPush_chunkContent |].
  unfold opPush. change MAXIMUM_SCRIPT_ELEMENT_SIZE with 520.
  destruct (Nat.ltb_spec 520 (length b)) as [Hlt | Hle].
  - split; split; intros H; try reflexivity; try assumption;
      try discriminate H; lia.
  - cbn [concat]. rewrite app_nil_r.
    split; split; intros H; try reflexivity; try assumption;
      try discriminate H; lia.
Qed.

Lemma mapM_index_missing_type (contents : list Content) :
  forall (seen ts : list string),
    length ts < length contents ->
    Forall (fun t => length (Buffer_from_utf8 t) <= MAXIMUM_SCRIPT_ELEMENT_SIZE) ts ->
    mapM_index (multiContents_item (TMany (seen ++ ts))) (length seen) contents
    = Throw TypeError.
Proof.
  induction contents as [| c contents IH]; intros seen ts Hlen Hfit.
  - simpl in Hlen. lia.
  - cbn [mapM_index]. destruct ts as [| t ts].
    + unfold multiContents_item. cbn [mediaType_at].
      rewrite app_nil_r.
      replace (nth_error seen (length seen)) with (@None string)
        by (symmetry; apply nth_error_None; lia).
      reflexivity.
    + inversion Hfit as [| ? ? Ht Hts]; subst.
      rewrite multiContents_item_spec with (t := t).
      2:{ cbn [mediaType_at]. rewrite nth_error_app2 by lia.
          rewrite Nat.sub_diag. reflexivity. }
      destruct (Nat.ltb_spec MAXIMUM_SCRIPT_ELEMENT_SIZE
                  (length (Buffer_from_utf8 t))); [lia |].
      cbn [bind].
      replace (seen ++ t :: ts) with ((seen ++ [t]) ++ ts)
        by (rewrite <- app_assoc; reflexivity).
      replace (S (length seen)) with (length (seen ++ [t]))
        by (rewrite length_app; simpl; lia).
      rewrite IH; [reflexivity | simpl in Hlen; lia | assumption].
Qed.

(** X3.  A batch call with fewer media types than items (each media type
    given fitting a script element) throws a [TypeError]: the media type of
    the first item without one is [undefined]. *)
Theorem buildWitnessScript_batch_missing_type
  (key : string) (ts : list string) (contents : list Content) (m : Meta) :
  truthy_string key = true ->
  length ts < length contents ->
  Forall (fun t => length (Buffer_from_utf8 t) <= 520) ts ->
  buildWitnessScript
    {| xkey := Some key; mediaContent := Some (CMany contents);
       mediaType := Some (TMany ts); meta := m; recover := false |}
  = Throw TypeError.
Proof.
  intros Hkey Hlen Hfit.
  unfold buildWitnessScript.
  cbn [xkey mediaContent mediaType meta recover truthy_mediaType
       truthy_mediaContent truthy_xkey].
  rewrite Hkey. cbn [negb orb].
  rewrite metaStackElements_spec. cbn [bind].
  pose proof (@mapM_index_missing_type contents nil ts Hlen Hfit) as Hb.
  cbn [app length] in Hb. rewrite Hb.
  reflexivity.
Qed.

(** X4.  A [meta] that is not an object ([undefined], [false], [true]) has
    no effect on the script: any two such values give the same result,
    whatever the other options are. *)
Theorem buildWitnessScript_meta_not_object
  (o : WitnessScriptOptions) (m : Meta) :
  typeof_is_object (meta o) = false ->
  typeof_is_object m = false ->
  buildWitnessScript o
  = buildWitnessScript
      {| xkey := xkey o; mediaContent := mediaContent o;
         mediaType := mediaType o; meta := m; recover := recover o |}.
Proof.
  intros H1 H2. unfold buildWitnessScript, metaStackElements.
  cbn [xkey mediaContent mediaType meta recover].
  rewrite H1, H2. reflexivity.
Qed.

End WithPlatform.
End WitnessMore.

Module WitnessMoreExamples.
Import Witness WitnessFacts WitnessMore.

#[local] Existing Instance Reference.platform.

(** 1041 bytes make chunks of 520, 520 and 1 bytes. *)
Example chunkContent_1041_sizes :
  map (@length byte) (chunkContent (CBuf (repeat x00 1041)) utf8) = [520; 520; 1].
Proof. vm_compute. reflexivity. Qed.

Lemma buildWitnessScript_batch_missing_type_witness :
  buildWitnessScript
    {| xkey := Some "aabb"%string;
       mediaContent := Some (CMany [CStr "hello"; CStr "world"]);
       mediaType := Some (TMany ["text/plain"%string]);
       meta := MetaUndefined; recover := false |}
  = Throw TypeError.
Proof.
  apply (@buildWitnessScript_batch_missing_type Reference.platform "aabb"
           ["text/plain"%string] [CStr "hello"; CStr "world"] MetaUndefined).
  - reflexivity.
  - simpl. lia.
  - repeat (apply Forall_cons; [vm_compute; lia |]). apply Forall_nil.
Defined.

Lemma buildWitnessScript_meta_not_object_witness :
  buildWitnessScript
    {| xkey := Some "aabb"%string; mediaContent := Some (COne (CStr "hello"));
       mediaType := Some (TOne "text/plain"); meta := MetaUndefined;
       recover := false |}
  = buildWitnessScript
      {| xkey := Some "aabb"%string; mediaContent := Some (COne (CStr "hello"));
         mediaType := Some (TOne "text/plain"); meta := MetaBool false;
         recover := false |}.
Proof.
  apply (@buildWitnessScript_meta_not_object Reference.platform
           {| xkey := Some "aabb"%string;
              mediaContent := Some (COne (CStr "hello"));
              mediaType := Some (TOne "text/plain"); meta := MetaUndefined;
              recover := false |} (MetaBool false)).
  - reflexivity.
  - reflexivity.
Defined.

End WitnessMoreExamples.

(** ** More of the commit/reveal orchestrator *)

Module InscriberMore.
Import Inscriber InscriberFacts.

(** One step of a run that returned a value: split the first call off. *)
Ltac mrun H a s H1 :=
  apply mbind_Ok in H as (a & s & H1 & H);
  try (apply modify_Ok in H1; subst s);
  try (apply get_Ok in H1 as [-> ->]).

Section WithSdk.

Context {P : Platform} {sdk : Sdk}.

Local Open Scope Z_scope.

(** The fields of its own that no method but [build] and the ones named
    assign: what [build] leaves as it found it. *)
Definition same_flags (s s' : Inscriber) : Prop :=
  commitAddress s' = commitAddress s
  /\ payment s' = payment s
  /\ recovery s' = recovery s
  /\ previewMode s' = previewMode s
  /\ ready s' = ready s
  /\ suitableUnspent s' = suitableUnspent s
  /\ witnessScripts s' = witnessScripts s
  /\ taprootTree s' = taprootTree s.

Lemma build_same_flags (s s' : Inscriber) (r : Result unit) :
  build s = (r, s') -> same_flags s s'.
Proof.
  unfold build, mbind, get, modify, ret, throw, super, same_flags.
  destruct (suitableUnspent s) as [unspent |] eqn:Eu;
    destruct (payment s) as [pay |] eqn:Ep;
    try (intros H; inversion H; subst; tauto).
  cbn. destruct (recovery s) eqn:Er; cbn; rewrite ?Er; cbn; rewrite ?Er; cbn;
    match goal with
    | |- context [prepare ?b] => destruct (prepare b) as [[[] | e] b1]
    end;
    intros H; inversion H; subst; cbn; rewrite ?Eu, ?Ep, ?Er; tauto.
Qed.

(** X6.  Outside recovery mode, with the funding output and the payment
    set, [build] hands [prepare] exactly one input, the taproot script-path
    spend of the funding output with the leaf of the payment's redeem script,
    and puts the destination output ([destinationAddress || address] with
    the postage) in front of the outputs that were there; the fee and
    [recoverAmount] are as before. *)
Theorem build_reveal (s : Inscriber) (unspent : UTXO) (pay : Payment) :
  suitableUnspent s = Some unspent ->
  payment s = Some pay ->
  recovery s = false ->
  exists s0,
    build s = super prepare s0
    /\ inputs (base s0)
       = [TaprootInput (txid unspent) (n unspent)
            (Buffer_from_hex (xKey (base s)))
            (pay_output pay, sats unspent) None
            [{| leafVersion := pay_redeemVersion pay;
                script := redeem_output (pay_redeem pay);
                controlBlock := last_element (pay_witness pay) |}]
            None]
    /\ outputs (base s0)
       = {| out_address := or_string (destinationAddress s) (address (base s));
            out_value := postage s |} :: outputs (base s)
    /\ recoverAmount s0 = recoverAmount s
    /\ fee (base s0) = fee (base s).
Proof.
  intros Hu Hp Hr.
  unfold build, mbind, get, modify, ret. rewrite Hu, Hp.
  cbn. rewrite Hr. cbn. rewrite Hr. cbn.
  eexists. split; [reflexivity |]. cbn. repeat split.
Qed.

Lemma preview_on_same (s s1 : Inscriber) :
  preview true s = (Ok tt, s1) ->
  commitAddress s1 = commitAddress s
  /\ payment s1 = payment s
  /\ recovery s1 = recovery s
  /\ witnessScripts s1 = witnessScripts s
  /\ taprootTree s1 = taprootTree s.
Proof.
  intros H. unfold preview in H.
  mrun H u0 s0 H0. mrun H a1 s2 H1.
  mrun H found s3 Hfound.
  assert (Hs3 : s3 = set_previewMode true s).
  { destruct (recovery (set_previewMode true s)).
    - mrun Hfound l s4 Hl. unfold call in Hl. unfold ret in Hfound.
      inversion Hl; inversion Hfound; subst; reflexivity.
    - unfold ret in Hfound. inversion Hfound; reflexivity. }
  subst s3. mrun H u1 s5 H5.
  assert (Hb : exists r, build (set_ready true
                   (set_suitableUnspent found (set_previewMode true s)))
                         = (r, s1)).
  { destruct (recovery (set_previewMode true s)), found;
      try discriminate H;
      mrun H u2 s6 H6; eauto. }
  destruct Hb as (r & Hb).
  apply build_same_flags in Hb. unfold same_flags in Hb.
  cbn in Hb. tauto.
Qed.

Lemma preview_off_flags (s : Inscriber) :
  exists sf,
    preview false s = (Ok tt, sf)
    /\ previewMode sf = false
    /\ ready sf = false
    /\ suitableUnspent sf = None
    /\ commitAddress sf = commitAddress s
    /\ payment sf = payment s
    /\ recovery sf = recovery s
    /\ fee (base sf) = fee (initPSBT (base s))
    /\ outputAmount (base sf) = outputAmount (initPSBT (base s)).
Proof. eexists. split; [reflexivity |]. repeat split. Qed.

(** What a completed dry run leaves in the object. *)
Lemma dry_run_leaves (s s' : Inscriber) :
  calculateNetworkFeeUsingPreviewMode s = (Ok tt, s') ->
  previewMode s' = false
  /\ ready s' = false
  /\ suitableUnspent s' = None
  /\ commitAddress s' = commitAddress s
  /\ payment s' = payment s
  /\ recovery s' = recovery s.
Proof.
  intros H. unfold calculateNetworkFeeUsingPreviewMode in H.
  mrun H u1 s1 Hon. destruct u1. mrun H u2 s2 H2.
  apply preview_on_same in Hon as (Hc & Hp & Hr & _).
  destruct (preview_off_flags (set_base (calculateNetworkFee (base s1)) s1))
    as (sf & Eoff & H1 & H3 & H4 & H5 & H6 & H7 & _).
  rewrite Eoff in H. inversion H; subst; clear H.
  rewrite H5, H6, H7.
  change (commitAddress (set_base (calculateNetworkFee (base s1)) s1))
    with (commitAddress s1).
  change (payment (set_base (calculateNetworkFee (base s1)) s1))
    with (payment s1).
  change (recovery (set_base (calculateNetworkFee (base s1)) s1))
    with (recovery s1).
  repeat split; assumption.
Qed.

Lemma commitAddress_set_commitAddress (a : option string) (s : Inscriber) :
  commitAddress (set_commitAddress a s) = a.
Proof. reflexivity. Qed.

(** X7.  When [generateCommit] returns [{address, revealFee}], the dry run
    has been undone: the object is not in preview mode, not ready, and holds
    no funding output, so a [build] right after it throws [NotReady]; the
    commit address is the address of the payment, and the quoted [revealFee]
    is the fee plus the output amount that the object holds. *)
Theorem generateCommit_leaves (s s' : Inscriber) (addr : string) (revealFee : Z) :
  generateCommit s = (Ok (addr, revealFee), s') ->
  previewMode s' = false
  /\ ready s' = false
  /\ suitableUnspent s' = None
  /\ commitAddress s' = Some addr
  /\ (exists pay, payment s' = Some pay /\ pay_address pay = addr)
  /\ revealFee = fee (base s') + outputAmount (base s')
  /\ build s' = (Throw NotReady, s').
Proof.
  intros H. unfold generateCommit in H.
  mrun H u1 s1 Htree. mrun H u2 s2 H2. mrun H a3 s3 H3.
  rewrite payment_set_payment in H.
  mrun H u4 s4 H4. mrun H u5 s5 Hdry. destruct u5.
  apply dry_run_leaves in Hdry as (Hpm & Hrd & Hsu & _ & Hpay & _).
  mrun H u6 s6 H6. mrun H a7 s7 H7.
  unfold ret in H. injection H as Ha Hf Hs. subst s' revealFee.
  split; [exact Hpm |]. split; [exact Hrd |]. split; [exact Hsu |].
  split; [rewrite <- Ha; reflexivity |].
  split; [eexists; split; [exact Hpay | exact Ha] |].
  split; [reflexivity |].
  unfold build, mbind, get, throw.
  change (suitableUnspent (set_commitAddress _ s5)) with (suitableUnspent s5).
  rewrite Hsu. reflexivity.
Qed.

(** X8.  When [recover] returns, the object is in recovery mode, out of
    preview mode, not ready and without a funding output, its commit address
    is the address of the payment, and a [build] right after it throws
    [NotReady]. *)
Theorem recover_leaves (s s' : Inscriber) (r : Recovered) :
  recover s = (Ok r, s') ->
  recovery s' = true
  /\ previewMode s' = false
  /\ ready s' = false
  /\ suitableUnspent s' = None
  /\ (exists pay, payment s' = Some pay
                  /\ commitAddress s' = Some (pay_address pay))
  /\ build s' = (Throw NotReady, s').
Proof.
  intros H. unfold recover in H.
  mrun H u0 s0 H0. mrun H u1 s1 Htree.
  destruct (buildTaprootTree_frame (set_recovery true s))
    as [(w & t & E) | (e & E)]; rewrite E in Htree; [| discriminate].
  inversion Htree; subst; clear Htree E.
  mrun H u2 s2 H2. mrun H a3 s3 H3. rewrite payment_set_payment in H.
  mrun H u4 s4 H4. mrun H u5 s5 Hdry. destruct u5.
  apply dry_run_leaves in Hdry as (Hpm & Hrd & Hsu & Hca & Hpay & Hrec).
  mrun H a6 s6 H6. unfold ret in H. inversion H; subst; clear H.
  repeat split; try assumption.
  - eexists. split; [exact Hpay | exact Hca].
  - unfold build, mbind, get, throw. rewrite Hsu. reflexivity.
Qed.

Lemma isBuilt_cases (s : Inscriber) :
  isBuilt s = (Ok tt, s) \/ isBuilt s = (Throw InvalidTx, s).
Proof.
  unfold isBuilt, mbind, get, throw, ret.
  destruct (negb (truthy_string (nonnull_string (commitAddress s)))
            || (fee (base s) =? 0)); [right | left]; reflexivity.
Qed.

(** X9.  Whenever [recover] returns, the data source has an output at the
    commit address, the fee reported is the fee the object then holds, the
    address reported is [changeAddress || address], and the amount reported
    is the value of the first such output less the fee that the object held
    when [recover] was called and less the fee reported; on an object whose
    fee was 0 it is the value less the fee reported. *)
Theorem recover_amount_law (s s' : Inscriber) (r : Recovered) :
  recover s = (Ok r, s') ->
  exists unspent rest,
    getUnspents_spendableUTXOs (nonnull_string (commitAddress s'))
    = Ok (unspent :: rest)
    /\ recoverFee r = fee (base s')
    /\ recoverAddress r
       = or_string (changeAddress (base s')) (address (base s'))
    /\ recoverAmount_ r = sats unspent - fee (base s) - recoverFee r
    /\ (fee (base s) = 0 -> recoverAmount_ r = sats unspent - recoverFee r).
Proof.
  intros H.
  destruct (recover_reports s H) as (unspent & rest & EU & Hfee & Hamt & Haddr).
  exists unspent, rest. repeat split; try assumption.
  intros H0. rewrite Hamt, H0. lia.
Qed.

(** X10.  [isReady] throws nothing but [InvalidTx], and only when the
    commit address is missing or empty or the fee is 0, leaving the object
    as it was; every other failure ends in a returned boolean. *)
Theorem isReady_throws_only_InvalidTx
  (o : SkipStrictSatsCheckOptions) (s s' : Inscriber) (e : Error) :
  isReady o s = (Throw e, s') ->
  e = InvalidTx
  /\ s' = s
  /\ (commitAddress s = None \/ commitAddress s = Some EmptyString
      \/ fee (base s) = 0).
Proof.
  unfold isReady. unfold mbind at 1.
  unfold isBuilt at 1, mbind at 1, get at 1.
  destruct (negb (truthy_string (nonnull_string (commitAddress s)))
            || (fee (base s) =? 0)) eqn:Hc.
  - unfold throw. intros H. injection H as He Hs. subst e s'.
    split; [reflexivity |]. split; [reflexivity |].
    apply orb_true_iff in Hc as [Hc | Hc].
    + destruct (commitAddress s) as [[| c a] |]; try discriminate Hc; auto.
    + apply Z.eqb_eq in Hc. auto.
  - unfold ret at 1. unfold mbind at 1, get at 1. unfold mbind at 1.
    destruct (ready s) eqn:Hr; cbn [negb].
    + unfold ret at 1. unfold mbind, get, ret. discriminate.
    + unfold try_. unfold mbind at 1.
      destruct (fetchAndSelectSuitableUnspent o s) as [[u | e1] s1].
      * unfold ret at 1. unfold mbind, get, ret. discriminate.
      * unfold ret. discriminate.
Qed.

(** The object after [fetchAndSelectSuitableUnspent] has chosen [u]. *)
Definition selected (u : UTXO) (b : Builder PsbtState) (s : Inscriber) : Inscriber :=
  set_ready true (set_suitableUnspent (Some u) (set_base b s)).

(** X11.  Outside preview mode, with commit address and fee set and a
    required amount not under the dust limit: when the data source returns
    outputs, [fetchAndSelectSuitableUnspent] takes the first, records it as
    the funding output and sets [ready], and [isReady] returns [true] in
    that state; when it returns none, [fetchAndSelectSuitableUnspent] throws
    [NoSelectedUtxos] and [isReady] returns [false], the funding output and
    [ready] untouched. *)
Theorem isReady_selects_first
  (o : SkipStrictSatsCheckOptions) (s : Inscriber)
  (utxos : list UTXO) (b : Builder PsbtState) :
  previewMode s = false ->
  truthy_string (nonnull_string (commitAddress s)) = true ->
  fee (base s) <> 0 ->
  ready s = false ->
  MINIMUM_AMOUNT_IN_SATS <= requiredAmount o s ->
  retrieveSelectedUTXOs (base s) (nonnull_string (commitAddress s))
    (requiredAmount o s) = (Ok utxos, b) ->
  match utxos with
  | u :: _ =>
      fetchAndSelectSuitableUnspent o s = (Ok u, selected u b s)
      /\ isReady o s = (Ok true, selected u b s)
  | [] =>
      fetchAndSelectSuitableUnspent o s = (Throw NoSelectedUtxos, set_base b s)
      /\ isReady o s = (Ok false, set_base b s)
  end.
Proof.
  intros Hp Ha Hf Hr Hmin Hret.
  assert (Hfetch :
    fetchAndSelectSuitableUnspent o s
    = match utxos with
      | u :: _ => (Ok u, selected u b s)
      | [] => (Throw NoSelectedUtxos, set_base b s)
      end).
  { unfold fetchAndSelectSuitableUnspent, restrictUsageInPreviewMode.
    unfold mbind at 1. unfold mbind at 1, get at 1. rewrite Hp.
    unfold ret at 1. unfold mbind at 1. rewrite (@isBuilt_Ok _ _ s Ha Hf).
    unfold mbind at 1, get at 1.
    destruct (Z.ltb_spec (requiredAmount o s) MINIMUM_AMOUNT_IN_SATS); [lia |].
    unfold mbind at 1, super at 1. rewrite Hret.
    destruct utxos as [| u rest]; reflexivity. }
  assert (Hready :
    isReady o s
    = match utxos with
      | u :: _ => (Ok true, selected u b s)
      | [] => (Ok false, set_base b s)
      end).
  { unfold isReady. unfold mbind at 1. rewrite (@isBuilt_Ok _ _ s Ha Hf).
    unfold mbind at 1, get at 1. unfold mbind at 1. rewrite Hr. cbn [negb].
    unfold try_. unfold mbind at 1. rewrite Hfetch.
    destruct utxos as [| u rest]; reflexivity. }
  destruct utxos as [| u rest]; split; assumption.
Qed.

(** X12.  When the data source knows no output, [recover] does not return:
    either the scripts cannot be built and that error is thrown, or it
    throws [NoUTXOFound] and leaves the object in recovery mode and still in
    preview mode, so that every later [fetchAndSelectSuitableUnspent] throws
    [PreviewModeRestricted]. *)
Theorem recover_unfunded (s s' : Inscriber) (r : Result Recovered) :
  (forall a, getUnspents_spendableUTXOs a = Ok []) ->
  recover s = (r, s') ->
  (r = Throw NoUTXOFound
   /\ recovery s' = true
   /\ previewMode s' = true
   /\ forall o, fetchAndSelectSuitableUnspent o s'
                = (Throw PreviewModeRestricted, s'))
  \/ (exists e, r = Throw e
                /\ buildTaprootTree (set_recovery true s)
                   = (Throw e, set_recovery true s)
                /\ s' = set_recovery true s).
Proof.
  intros Hnone. unfold recover. unfold mbind at 1, modify at 1.
  unfold mbind at 1.
  destruct (buildTaprootTree_frame (set_recovery true s))
    as [(w & t & E) | (e & E)]; rewrite E.
  - unfold mbind at 1, modify at 1. unfold mbind at 1, get at 1.
    rewrite payment_set_payment.
    unfold mbind at 1, modify at 1. unfold mbind at 1.
    unfold calculateNetworkFeeUsingPreviewMode. unfold mbind at 1.
    unfold preview at 1.
    unfold mbind at 1, modify at 1. unfold mbind at 1, get at 1.
    unfold mbind at 1.
    change (recovery (set_previewMode true _)) with true. cbv iota.
    unfold mbind at 1, call at 1. rewrite Hnone. unfold ret at 1.
    cbn [hd_error]. unfold mbind at 1, modify at 1. unfold throw.
    intros H. inversion H; subst; clear H. left.
    split; [reflexivity |]. split; [reflexivity |]. split; [reflexivity |].
    intros o. reflexivity.
  - intros H. inversion H; subst; clear H. right.
    exists e. repeat split.
Qed.

(** The value of [getMetadata()]. *)
Definition metadata_of (s : Inscriber) : Witness.Meta :=
  match meta s with
  | Some o =>
      if encodeMetadata s
      then Witness.MetaObject (encodeObject o)
      else Witness.MetaObject o
  | None => Witness.MetaUndefined
  end.

(** The options with which [buildWitness] calls [buildWitnessScript]. *)
Definition script_options (s : Inscriber) (m : Witness.Meta) (rec : bool)
  : Witness.WitnessScriptOptions :=
  {| Witness.xkey := Some (xKey (base s));
     Witness.mediaContent := mediaContent s;
     Witness.mediaType := mediaType s;
     Witness.meta := m;
     Witness.recover := rec |}.

Lemma recovery_script (o : Witness.WitnessScriptOptions) (k : string) (c : Buffer) :
  Witness.xkey o = Some k ->
  Witness.recover o = true ->
  Witness.buildWitnessScript o = Ok c ->
  c = script_compile [Push (Buffer_from_hex k); Op OP_CHECKSIG].
Proof.
  intros Hk Hr. unfold Witness.buildWitnessScript. rewrite Hk, Hr.
  destruct (negb (Witness.truthy_mediaType (Witness.mediaType o))
            || negb (Witness.truthy_mediaContent (Witness.mediaContent o))
            || negb (Witness.truthy_xkey (Some k))); [discriminate |].
  destruct (Witness.mediaType o); [| discriminate].
  destruct (Witness.mediaContent o); [| discriminate].
  intros H. inversion H. reflexivity.
Qed.

Lemma script_without_metadata (s : Inscriber) :
  Witness.buildWitnessScript (script_options s Witness.MetaUndefined false)
  = Witness.buildWitnessScript (script_options s (Witness.MetaBool false) false).
Proof.
  unfold Witness.buildWitnessScript, Witness.metaStackElements, script_options.
  reflexivity.
Qed.

(** X5.  When [buildTaprootTree] returns, the three scripts are the ones
    [buildWitnessScript] makes from the object's content: the inscription
    with the metadata, the inscription without, and the recovery script
    [xKey OP_CHECKSIG].  Version "2" gives the tree
    [[recovery, inscription], inscriptionOnly], any other version
    [inscription, recovery].  Without metadata the inscription-only script
    is the inscription script.  The inherited state, the commit address,
    the payment, the funding output and the flags [recovery] and [ready] are
    as before. *)
Theorem buildTaprootTree_shape (s s' : Inscriber) :
  buildTaprootTree s = (Ok tt, s') ->
  exists inscription inscriptionOnly,
    Witness.buildWitnessScript (script_options s (metadata_of s) false)
    = Ok inscription
    /\ Witness.buildWitnessScript (script_options s (Witness.MetaBool false) false)
       = Ok inscriptionOnly
    /\ (meta s = None -> inscriptionOnly = inscription)
    /\ let recovery_ :=
         script_compile [Push (Buffer_from_hex (xKey (base s))); Op OP_CHECKSIG] in
       witnessScripts s'
       = {| ws_inscription := Some inscription;
            ws_inscriptionOnly := Some inscriptionOnly;
            ws_recovery := Some recovery_ |}
       /\ taprootTree s'
          = Some match taptreeVersion s with
                 | Some V2 =>
                     TapBranch
                       (TapBranch (TapLeaf recovery_) (TapLeaf inscription))
                       (TapLeaf inscriptionOnly)
                 | _ => TapBranch (TapLeaf inscription) (TapLeaf recovery_)
                 end
       /\ base s' = base s
       /\ commitAddress s' = commitAddress s
       /\ payment s' = payment s
       /\ recovery s' = recovery s
       /\ ready s' = ready s
       /\ suitableUnspent s' = suitableUnspent s.
Proof.
  unfold buildTaprootTree.
  cbv beta iota zeta delta [buildWitness mbind get getMetadata call ret modify].
  fold (metadata_of s).
  fold (script_options s (metadata_of s) false).
  fold (script_options s (Witness.MetaBool false) false).
  fold (script_options s (metadata_of s) true).
  destruct (Witness.buildWitnessScript (script_options s (metadata_of s) false))
    as [inscription | e1] eqn:E1; [| discriminate].
  destruct (Witness.buildWitnessScript
              (script_options s (Witness.MetaBool false) false))
    as [inscriptionOnly | e2] eqn:E2; [| discriminate].
  destruct (Witness.buildWitnessScript (script_options s (metadata_of s) true))
    as [rec | e3] eqn:E3; [| discriminate].
  apply (@recovery_script _ (xKey (base s))) in E3; [| reflexivity | reflexivity].
  subst rec.
  intros H. injection H as Hs. subst s'.
  exists inscription, inscriptionOnly.
  split; [reflexivity |]. split; [reflexivity |]. split.
  - intros Hmeta. unfold metadata_of in E1. rewrite Hmeta in E1.
    rewrite script_without_metadata in E1. congruence.
  - cbn zeta.
    destruct (taptreeVersion s) as [[|] |] eqn:Ev; cbn; rewrite ?Ev; cbn;
      repeat split.
Qed.

End WithSdk.
End InscriberMore.

Module InscriberMoreExamples.
Import Inscriber InscriberFacts InscriberExamples InscriberMore.

#[local] Existing Instance Reference.platform.

Local Open Scope Z_scope.

(** A run written as the pair of its outcome and the state it leaves. *)
Lemma run_pair {A : Type} (m : M A) (s : Inscriber) (r : Result A) :
  fst (m s) = r -> m s = (r, after m s).
Proof. intros <-. apply surjective_pairing. Qed.

(** The object once the commit address is generated. *)
Definition committed : Inscriber := after generateCommit (new_Inscriber 1000).

(** ... and once the funding output is found. *)
Definition funded : Inscriber := after (isReady no_options) committed.

Definition the_payment (s : Inscriber) : Payment :=
  match payment s with
  | Some p => p
  | None => a_payment {| redeem_output := []; redeem_redeemVersion := 0 |}
  end.

Lemma build_reveal_witness :
  exists s0,
    build funded = super prepare s0
    /\ outputs (base s0)
       = {| out_address := or_string (destinationAddress funded)
                             (address (base funded));
            out_value := postage funded |} :: outputs (base funded).
Proof.
  destruct (@build_reveal Reference.platform sdk funded funding
              (the_payment funded))
    as (s0 & Hb & _ & Hout & _).
  - vm_compute. reflexivity.
  - vm_compute. reflexivity.
  - vm_compute. reflexivity.
  - exists s0. split; [exact Hb | exact Hout].
Defined.

Example build_reveal_outputs :
  outputs (base (after build funded))
  = [{| out_address := "tb1p-owner"; out_value := 1000 |}].
Proof. vm_compute. reflexivity. Qed.

Lemma generateCommit_leaves_witness :
  previewMode (after generateCommit (new_Inscriber 1000)) = false
  /\ ready (after generateCommit (new_Inscriber 1000)) = false
  /\ suitableUnspent (after generateCommit (new_Inscriber 1000)) = None
  /\ commitAddress (after generateCommit (new_Inscriber 1000))
     = Some commit_address.
Proof.
  destruct (@generateCommit_leaves Reference.platform sdk (new_Inscriber 1000)
              (after generateCommit (new_Inscriber 1000)) commit_address 1300)
    as (H1 & H2 & H3 & H4 & _).
  - apply (run_pair generateCommit (new_Inscriber 1000)).
    vm_compute. reflexivity.
  - repeat split; assumption.
Defined.

Lemma recover_leaves_witness :
  recovery (after recover (new_Inscriber 1000)) = true
  /\ suitableUnspent (after recover (new_Inscriber 1000)) = None.
Proof.
  destruct (@recover_leaves Reference.platform sdk (new_Inscriber 1000)
              (after recover (new_Inscriber 1000))
              {| recoverAddress := "tb1p-change"; recoverAmount_ := 9700;
                 recoverFee := 300 |})
    as (H1 & _ & _ & H4 & _).
  - apply (run_pair recover (new_Inscriber 1000)). vm_compute. reflexivity.
  - split; assumption.
Defined.

Lemma recover_amount_law_witness :
  exists unspent rest,
    getUnspents_spendableUTXOs
      (nonnull_string (commitAddress (after recover (new_Inscriber 1000))))
    = Ok (unspent :: rest)
    /\ 9700 = sats unspent - 300.
Proof.
  destruct (@recover_amount_law Reference.platform sdk (new_Inscriber 1000)
              (after recover (new_Inscriber 1000))
              {| recoverAddress := "tb1p-change"; recoverAmount_ := 9700;
                 recoverFee := 300 |})
    as (unspent & rest & EU & _ & _ & _ & Hamt).
  - apply (run_pair recover (new_Inscriber 1000)). vm_compute. reflexivity.
  - exists unspent, rest. split; [exact EU | apply Hamt; reflexivity].
Defined.

Lemma isReady_throws_only_InvalidTx_witness :
  fst (isReady no_options (new_Inscriber 1000)) = Throw InvalidTx
  /\ after (isReady no_options) (new_Inscriber 1000) = new_Inscriber 1000.
Proof.
  split; [vm_compute; reflexivity |].
  refine (proj1 (proj2 (@isReady_throws_only_InvalidTx Reference.platform sdk
                          no_options (new_Inscriber 1000)
                          (after (isReady no_options) (new_Inscriber 1000))
                          InvalidTx _))).
  apply (run_pair (isReady no_options) (new_Inscriber 1000)).
  vm_compute. reflexivity.
Defined.

Lemma isReady_selects_first_witness :
  fetchAndSelectSuitableUnspent no_options committed
  = (Ok funding, selected funding (base committed) committed)
  /\ isReady no_options committed
     = (Ok true, selected funding (base committed) committed).
Proof.
  apply (@isReady_selects_first Reference.platform sdk no_options committed
           [funding] (base committed)).
  - vm_compute. reflexivity.
  - vm_compute. reflexivity.
  - vm_compute. discriminate.
  - vm_compute. reflexivity.
  - vm_compute. discriminate.
  - vm_compute. reflexivity.
Defined.

Lemma buildTaprootTree_shape_witness :
  exists inscription inscriptionOnly,
    witnessScripts (after buildTaprootTree (new_Inscriber 1000))
    = {| ws_inscription := Some inscription;
         ws_inscriptionOnly := Some inscriptionOnly;
         ws_recovery :=
           Some (script_compile
                   [Push (Buffer_from_hex "aabb"); Op OP_CHECKSIG]) |}
    /\ inscriptionOnly = inscription.
Proof.
  destruct (@buildTaprootTree_shape Reference.platform sdk (new_Inscriber 1000)
              (after buildTaprootTree (new_Inscriber 1000)))
    as (i & io & _ & _ & Hsame & Hw & _).
  - apply (run_pair buildTaprootTree (new_Inscriber 1000)).
    vm_compute. reflexivity.
  - exists i, io. split; [exact Hw | apply Hsame; reflexivity].
Defined.

(** Modelled from the spec: the same stand-ins for the inherited methods,
    with a data source that knows no output at any address. *)
Definition sdk_unfunded : Sdk := {|
  PsbtState := unit;
  MINIMUM_AMOUNT_IN_SATS := 600;
  prepare := @prepare sdk;
  initPSBT := @initPSBT sdk;
  calculateNetworkFee := @calculateNetworkFee sdk;
  retrieveSelectedUTXOs := fun b _ _ => (Ok [], b);
  getUnspents_spendableUTXOs := fun _ => Ok [];
  getDummyP2TRInput := @getDummyP2TRInput sdk;
  payments_p2tr := @payments_p2tr sdk;
  createTransaction_p2tr := @createTransaction_p2tr sdk
|}.

(** The new object of [new_Inscriber], for that data source. *)
Definition new_unfunded : @Inscriber Reference.platform sdk_unfunded :=
  let s := new_Inscriber 1000 in
  @Build_Inscriber Reference.platform sdk_unfunded
    (base s) (mediaType s) (mediaContent s) (meta s) (taptreeVersion s)
    (postage s) (ready s) (commitAddress s) (destinationAddress s)
    (payment s) (suitableUnspent s) (recovery s) (recoverAmount s)
    (encodeMetadata s) (previewMode s) (witnessScripts s) (taprootTree s).

Lemma recover_unfunded_witness :
  fst (recover new_unfunded) = Throw NoUTXOFound
  /\ previewMode (snd (recover new_unfunded)) = true.
Proof.
  destruct (@recover_unfunded Reference.platform sdk_unfunded new_unfunded
              (snd (recover new_unfunded)) (fst (recover new_unfunded)))
    as [(Hr & _ & Hp & _) | (e & He & Hb & _)].
  - intros a. reflexivity.
  - apply surjective_pairing.
  - split; assumption.
  - exfalso.
    assert (Hok : fst (buildTaprootTree (set_recovery true new_unfunded)) = Ok tt)
      by (vm_compute; reflexivity).
    rewrite Hb in Hok. discriminate Hok.
Defined.

End InscriberMoreExamples.

(** ** More of the PSBT assembler *)

Module PsbtMore.
Import Psbt PsbtFacts.

Section WithSdk.

Context {P : Platform} {sdk : Sdk}.

Local Open Scope Z_scope.

(** X13.  When [enableRBF] is [false] and [createPsbt] returns a PSBT, every
    input keeps the default sequence number [0xffffffff]. *)
Theorem createPsbt_no_rbf_sequence (o : CreatePsbtOptions) (psbt : Psbt) :
  enableRBF o = Some false ->
  createPsbt o = Ok psbt ->
  Forall (fun i => sequence i = 0xffffffff) (psbt_inputs psbt).
Proof.
  intros Hrbf H.
  destruct (createPsbt_spec o H) as (u & _ & _ & Hseq & _).
  unfold rbf_enabled in Hseq. rewrite Hrbf in Hseq. exact Hseq.
Qed.

(** Once an output has been passed over, the position in [spendableUTXOs]
    is ahead of the inputs of the psbt, and with replace-by-fee the loop
    cannot take another output. *)
Lemma add_inputs_after_skip (o : CreatePsbtOptions) (utxos : list UTXO) :
  forall (index : nat) (psbt psbt' : Psbt) (w w' : list Buffer),
    (length (psbt_inputs psbt) < index)%nat ->
    add_inputs o true index utxos psbt w = Ok (psbt', w') ->
    Forall (fun u => at_funding_address o u = false) utxos.
Proof.
  induction utxos as [| utxo rest IH]; intros index psbt psbt' w w' Hlen H.
  - constructor.
  - cbn [add_inputs] in H. fold (at_funding_address o utxo) in H.
    destruct (at_funding_address o utxo) eqn:Ea; cbn [negb] in H.
    + exfalso.
      destruct (processInput utxo (pubKey o) (network o) None None)
        as [i | e]; [| discriminate].
      cbn [bind] in H. unfold setInputSequence in H.
      cbn [addInput psbt_inputs] in H. rewrite length_app in H.
      cbn [length] in H.
      destruct (Nat.leb_spec (length (psbt_inputs psbt) + 1) index);
        [discriminate | lia].
    + constructor; [exact Ea |].
      apply IH in H; [exact H | lia].
Qed.

Lemma add_inputs_prefix (o : CreatePsbtOptions) (utxos : list UTXO) :
  forall (index : nat) (psbt psbt' : Psbt) (w w' : list Buffer),
    (length (psbt_inputs psbt) <= index)%nat ->
    add_inputs o true index utxos psbt w = Ok (psbt', w') ->
    exists k,
      Forall (fun u => at_funding_address o u = true) (firstn k utxos)
      /\ Forall (fun u => at_funding_address o u = false) (skipn k utxos).
Proof.
  induction utxos as [| utxo rest IH]; intros index psbt psbt' w w' Hlen H.
  - exists 0%nat. split; constructor.
  - pose proof H as H0. cbn [add_inputs] in H.
    fold (at_funding_address o utxo) in H.
    destruct (at_funding_address o utxo) eqn:Ea; cbn [negb] in H.
    + destruct (processInput utxo (pubKey o) (network o) None None)
        as [i | e]; [| discriminate].
      cbn [bind] in H. unfold setInputSequence in H.
      cbn [addInput psbt_inputs] in H. rewrite length_app in H.
      cbn [length] in H.
      destruct (Nat.leb_spec (length (psbt_inputs psbt) + 1) index);
        [discriminate |].
      cbn [bind psbt_outputs] in H.
      assert (index = length (psbt_inputs psbt)) by lia. subst index.
      rewrite set_nth_sequence_last in H.
      apply IH in H.
      * destruct H as (k & Hk1 & Hk2). exists (S k).
        cbn [firstn skipn]. split; [constructor; assumption | assumption].
      * cbn [psbt_inputs]. rewrite length_app. cbn [length]. lia.
    + exists 0%nat. cbn [firstn skipn]. split; [constructor |].
      constructor; [exact Ea |].
      apply add_inputs_after_skip in H; [exact H | lia].
Qed.

(** X14.  With replace-by-fee, [createPsbt] returns a PSBT only when the
    spendable outputs at the funding address all come before the ones at
    other addresses in the data source's answer (the sequence number is set
    at the position in that list, which must be the position of the input);
    the inputs are then that leading run. *)
Theorem createPsbt_rbf_needs_prefix (o : CreatePsbtOptions) (psbt : Psbt) :
  rbf_enabled o = true ->
  createPsbt o = Ok psbt ->
  exists u k,
    fetchUnspentUTXOs (funding_address o) (network o)
      (if safeMode_is_off o then "all" else "spendable")%string = Ok u
    /\ Forall (fun x => spk_address (scriptPubKey x) = funding_address o)
         (firstn k (spendableUTXOs u))
    /\ Forall (fun x => spk_address (scriptPubKey x) <> funding_address o)
         (skipn k (spendableUTXOs u))
    /\ length (psbt_inputs psbt) = Nat.min k (length (spendableUTXOs u)).
Proof.
  intros Hrbf H.
  destruct (createPsbt_spec o H) as (u & Eu & Hmap & _).
  unfold createPsbt in H.
  destruct (length (outputs o) =? 0)%nat; [discriminate |].
  rewrite Eu in H. cbn [bind] in H.
  destruct (totalUTXOs u =? 0); [discriminate |].
  rewrite Hrbf in H.
  destruct (add_inputs o true 0 (spendableUTXOs u) new_Psbt [])
    as [[p w] | e] eqn:Ea; [| discriminate].
  destruct (@add_inputs_prefix o (spendableUTXOs u) 0%nat new_Psbt p [] w
              (Nat.le_refl _) Ea) as (k & Hk1 & Hk2).
  exists u, k. split; [exact Eu |].
  assert (H1 : Forall (fun x => spk_address (scriptPubKey x) = funding_address o)
                 (firstn k (spendableUTXOs u))).
  { eapply Forall_impl; [| exact Hk1]. intros x Hx.
    apply String.eqb_eq. exact Hx. }
  assert (H2 : Forall (fun x => spk_address (scriptPubKey x) <> funding_address o)
                 (skipn k (spendableUTXOs u))).
  { eapply Forall_impl; [| exact Hk2]. intros x Hx.
    apply String.eqb_neq. exact Hx. }
  split; [exact H1 |]. split; [exact H2 |].
  apply (f_equal (@length _)) in Hmap. rewrite !length_map in Hmap.
  rewrite Hmap.
  rewrite <- (firstn_skipn k (spendableUTXOs u)) at 1.
  rewrite filter_app, length_app.
  replace (filter (at_funding_address o) (skipn k (spendableUTXOs u)))
    with (@nil UTXO).
  2:{ symmetry. clear - Hk2.
      induction Hk2 as [| x l Hx _ IH]; [reflexivity |].
      cbn [filter]. rewrite Hx. exact IH. }
  replace (filter (at_funding_address o) (firstn k (spendableUTXOs u)))
    with (firstn k (spendableUTXOs u)).
  2:{ symmetry. clear - Hk1.
      induction Hk1 as [| x l Hx _ IH]; [reflexivity |].
      cbn [filter]. rewrite Hx, IH. reflexivity. }
  cbn [length]. rewrite length_firstn. lia.
Qed.

(** The total of the values of outputs. *)
Definition sum_values (l : list (string * Z)) : Z :=
  fold_left (fun acc out => acc + snd out) l 0.

Lemma sum_values_acc (l : list (string * Z)) (acc : Z) :
  fold_left (fun a out => a + snd out) l acc = acc + sum_values l.
Proof.
  unfold sum_values. revert acc.
  induction l as [| x l IH]; intros acc; cbn; [lia |].
  rewrite IH, (IH (snd x)). lia.
Qed.

Lemma sum_values_app (l1 l2 : list (string * Z)) :
  sum_values (l1 ++ l2) = sum_values l1 + sum_values l2.
Proof.
  unfold sum_values at 1. rewrite fold_left_app, sum_values_acc. reflexivity.
Qed.

Lemma sum_values_requests (l : list OutputRequest) :
  sum_values (map (fun out => (address out, cardinals out)) l) = sum_cardinals l.
Proof.
  unfold sum_values, sum_cardinals. generalize 0.
  induction l as [| x l IH]; intros acc; cbn; [reflexivity | apply IH].
Qed.

(** X15.  In a PSBT that [createPsbt] returns, the input sum that the code
    computes ([inputSats]: all the spendable outputs, and the unspendable
    ones when [safeMode] is "off") less the outputs of the PSBT is at least
    the estimated fee, and is either exactly the fee (always so when a change
    output was added) or exceeds it by no more than
    [MINIMUM_AMOUNT_IN_SATS]; at most one output is added to the requested
    ones. *)
Theorem createPsbt_fee_paid (o : CreatePsbtOptions) (psbt : Psbt) :
  createPsbt o = Ok psbt ->
  exists u,
    fetchUnspentUTXOs (funding_address o) (network o)
      (if safeMode_is_off o then "all" else "spendable")%string = Ok u
    /\ let fee := FeeEstimator_calculateNetworkFee
                    {| psbt_inputs := psbt_inputs psbt; psbt_outputs := [] |}
                    (satsPerByte o) (network o) in
       let paid := inputSats o u - sum_values (psbt_outputs psbt) in
       fee <= paid
       /\ (paid = fee \/ paid <= fee + MINIMUM_AMOUNT_IN_SATS)
       /\ (length (psbt_outputs psbt) = length (outputs o)
           \/ (length (psbt_outputs psbt) = S (length (outputs o))
               /\ paid = fee)).
Proof.
  intros H.
  destruct (createPsbt_spec o H) as (u & Eu & _ & _ & Hbal).
  exists u. split; [exact Eu |].
  cbn zeta in Hbal |- *. destruct Hbal as [Hpos Hout].
  rewrite Hout, sum_values_app, sum_values_requests, length_app, length_map.
  destruct (Z.ltb_spec MINIMUM_AMOUNT_IN_SATS
              (inputSats o u - sum_cardinals (outputs o)
               - FeeEstimator_calculateNetworkFee
                   {| psbt_inputs := psbt_inputs psbt; psbt_outputs := [] |}
                   (satsPerByte o) (network o))) as [Hlt | Hge].
  - unfold sum_values. cbn. split; [lia |]. split; [left; lia |].
    right. split; lia.
  - unfold sum_values. cbn. split; [lia |]. split; [right; lia |].
    left. lia.
Qed.




End WithSdk.
End PsbtMore.

Module PsbtMoreExamples.
Import Psbt PsbtFacts PsbtExamples PsbtMore.

#[local] Existing Instance Reference.platform.

Local Open Scope Z_scope.

Definition request_no_rbf : CreatePsbtOptions :=
  {| satsPerByte := 2; funding_address := "me";
     outputs := [{| address := "you"; cardinals := 7500 |}];
     enableRBF := Some false; pubKey := "02aabb"; network := "testnet";
     safeMode := None |}.

Lemma createPsbt_no_rbf_sequence_witness :
  exists psbt,
    createPsbt request_no_rbf = Ok psbt
    /\ Forall (fun i => sequence i = 0xffffffff) (psbt_inputs psbt).
Proof.
  destruct (createPsbt request_no_rbf) as [psbt | e] eqn:E;
    [| vm_compute in E; discriminate E].
  exists psbt. split; [reflexivity |].
  exact (@createPsbt_no_rbf_sequence Reference.platform sdk
           request_no_rbf psbt eq_refl E).
Defined.

(** 8000 sats in, 7500 out, a fee of 200: the 300 sats left are under the
    dust limit and go to the fee; there is no change output. *)
Example createPsbt_remainder_absorbed :
  rmap psbt_outputs (createPsbt request_no_rbf) = Ok [("you"%string, 7500)].
Proof. vm_compute. reflexivity. Qed.

Lemma createPsbt_rbf_needs_prefix_witness :
  exists psbt u k,
    createPsbt (request "me" None) = Ok psbt
    /\ Forall (fun x => spk_address (scriptPubKey x) = "me"%string)
         (firstn k (spendableUTXOs u))
    /\ Forall (fun x => spk_address (scriptPubKey x) <> "me"%string)
         (skipn k (spendableUTXOs u)).
Proof.
  destruct (createPsbt (request "me" None)) as [psbt | e] eqn:E;
    [| vm_compute in E; discriminate E].
  destruct (@createPsbt_rbf_needs_prefix Reference.platform sdk
              (request "me" None) psbt eq_refl E)
    as (u & k & _ & H1 & H2 & _).
  exists psbt, u, k. split; [reflexivity |]. split; assumption.
Defined.

Lemma createPsbt_fee_paid_witness :
  exists psbt u,
    createPsbt request_no_rbf = Ok psbt
    /\ 200 <= inputSats request_no_rbf u - sum_values (psbt_outputs psbt).
Proof.
  destruct (createPsbt request_no_rbf) as [psbt | e] eqn:E;
    [| vm_compute in E; discriminate E].
  destruct (@createPsbt_fee_paid Reference.platform sdk request_no_rbf psbt E)
    as (u & _ & Hfee & _).
  exists psbt, u. split; [reflexivity | exact Hfee].
Defined.



End PsbtMoreExamples.

(** ** More of the balance gate *)

Module BRC20More.
Import BRC20.

Local Open Scope Z_scope.

(** The ways [validateTransferOptions] fails: its own two errors, or a
    failure of the ledger, passed through. *)
Inductive ValidationError : Type :=
| InvalidAmount           (* "Invalid amount" *)
| InvalidToken            (* "Invalid token" *)
| LedgerFailure (e : Error).

Section WithDatasource.

(** The token metadata that the ledger keeps. *)
Variable Token : Type.

(** [await datasource.getToken({ tick })]; [None] is no token. *)
Variable getToken : string -> Result (option Token).

Variable getAddressTokens : string -> Result (list TokenBalance).

(** [validateTransferOptions({ amount, tick, datasource, network })]; an
    [amount] that is [NaN] is [None]. *)
Definition validateTransferOptions (amount : option Z) (tick_ : string)
  : ValidationError + unit :=
  match amount with
  | None => inl InvalidAmount
  | Some a =>
      if a <=? 0 then inl InvalidAmount
      else
        match getToken tick_ with
        | Throw e => inl (LedgerFailure e)
        | Ok None => inl InvalidToken
        | Ok (Some _) => inr tt
        end
  end.

(** X18.  [validateTransferOptions] passes exactly for a positive amount
    of a token that the ledger knows; it fails with [InvalidAmount] exactly
    when the amount is [NaN], zero or negative, whatever the ledger says, and
    with [InvalidToken] exactly when the amount is positive and the ledger
    has no such token. *)
Theorem validateTransferOptions_passes (amount : option Z) (tick_ : string) :
  (validateTransferOptions amount tick_ = inr tt
   <-> exists a token,
         amount = Some a /\ 0 < a /\ getToken tick_ = Ok (Some token))
  /\ (validateTransferOptions amount tick_ = inl InvalidAmount
      <-> amount = None \/ exists a, amount = Some a /\ a <= 0)
  /\ (validateTransferOptions amount tick_ = inl InvalidToken
      <-> exists a, amount = Some a /\ 0 < a /\ getToken tick_ = Ok None).
Proof.
  unfold validateTransferOptions.
  destruct amount as [a |];
    [destruct (Z.leb_spec a 0) as [Hle | Hgt];
     [| destruct (getToken tick_) as [[t |] | e]] |];
    repeat split; intros H; try discriminate H; try reflexivity;
    repeat match goal with
           | H : exists _, _ |- _ => destruct H
           | H : _ /\ _ |- _ => destruct H
           | H : _ \/ _ |- _ => destruct H
           end;
    try discriminate;
    try (match goal with
         | H : Some _ = Some _ |- _ => inversion H; subst
         end; lia);
    eauto 8.
Qed.

(** X19.  Given the holder's records, [getBalances] throws [NoBalance]
    exactly when no record has the ticker, and otherwise returns the three
    amounts of the first record that has it. *)
Theorem getBalances_lookup (address tick_ : string) (balances : list TokenBalance) :
  getAddressTokens address = Ok balances ->
  (getBalances getAddressTokens address tick_ = Throw NoBalance
   <-> Forall (fun b => tick b <> tick_) balances)
  /\ (forall r, getBalances getAddressTokens address tick_ = Ok r ->
      exists before b after_,
        balances = before ++ b :: after_
        /\ Forall (fun x => tick x <> tick_) before
        /\ tick b = tick_
        /\ r = {| b_total := total b; b_available := available b;
                  b_transferable := transferable b |}).
Proof.
  intros Hget. unfold getBalances. rewrite Hget. cbn [bind].
  clear Hget. induction balances as [| x l [IH1 IH2]].
  - cbn. split; [split; [constructor | reflexivity] | discriminate].
  - cbn [find]. destruct (String.eqb_spec (tick x) tick_) as [Eq | Ne].
    + split.
      * split; [discriminate |].
        intros H. inversion H; subst. contradiction.
      * intros r H. inversion H; subst.
        exists [], x, l. repeat split. constructor.
    + split.
      * split.
        -- intros H. constructor; [exact Ne | apply IH1; exact H].
        -- intros H. inversion H; subst. apply IH1. assumption.
      * intros r H. destruct (IH2 r H) as (before & b & after_ & E & Hb & Ht & Hr).
        exists (x :: before), b, after_. subst l. repeat split; auto.
Qed.

End WithDatasource.

Lemma getBalances_lookup_witness :
  exists before b after_,
    [{| tick := "ordi"; total := 1000; available := 700; transferable := 500 |}]
    = before ++ b :: after_
    /\ tick b = "ordi"%string.
Proof.
  destruct (@getBalances_lookup BRC20Facts.ledger "holder" "ordi"
              [{| tick := "ordi"; total := 1000; available := 700;
                  transferable := 500 |}] eq_refl)
    as [_ H].
  destruct (H {| b_total := 1000; b_available := 700; b_transferable := 500 |}
              eq_refl)
    as (before & b & after_ & E & _ & Ht & _).
  exists before, b, after_. split; assumption.
Defined.

End BRC20More.
